(** * The Cordova filesystem adapter of ILIAS-Pegasus

    A shallow embedding of [AbstractCordovaFilesystem], [AndroidFilesystem],
    [IOSFilesystem] and [CORDOVA_FILESYSTEM_FACTORY], and the properties of
    the adapter's specification stated against it.

    - JavaScript strings are [string]; [split], [join] and [pop] follow the
      built-ins the source calls.
    - An [async] function is a computation in the monad [M]: it reads and
      updates a [State] (the device behind the native plugins, plus a record
      of the native calls made) and ends as a promise does: fulfilled,
      rejected, or never settled.  [await] is the monad's bind, [throw] is
      [throw], [try]/[catch] is [try_catch].
    - The native plugins (File, FileOpener, DocumentViewer) and the Ionic
      [Platform] are not part of the program: they are parameters. *)

From Stdlib Require Import String Ascii List ZArith Bool Lia.
From Stdlib Require Import DecimalString.
Import ListNotations.
Local Open Scope string_scope.

(** ** JavaScript built-ins used by the adapter *)

Module JS.

(** [s.split(sep)] for a separator of one character, the only use the
    source makes of it ([path.split("/")]).  The result is never empty:
    the empty string splits into one empty segment. *)
Fixpoint split (sep : ascii) (s : string) : list string :=
  match s with
  | EmptyString => [EmptyString]
  | String c rest =>
      if Ascii.eqb c sep then EmptyString :: split sep rest
      else match split sep rest with
           | [] => [String c EmptyString]
           | seg :: segs => String c seg :: segs
           end
  end.

(** [l.join(sep)]. *)
Fixpoint join (sep : string) (l : list string) : string :=
  match l with
  | [] => EmptyString
  | [x] => x
  | x :: rest => x ++ sep ++ join sep rest
  end.

(** [l.pop()]: the removed last element ([None] renders [undefined], the
    answer on an empty array) and the array that is left. *)
Fixpoint pop (l : list string) : option string * list string :=
  match l with
  | [] => (None, [])
  | [x] => (Some x, [])
  | x :: rest => let (last, front) := pop rest in (last, x :: front)
  end.

(** [s.endsWith(suffix)], used to state the properties. *)
Definition endsWith (s suffix : string) : bool :=
  let n := String.length s in
  let k := String.length suffix in
  (k <=? n)%nat && String.eqb (substring (n - k) k s) suffix.

(** The double-quote character, for the template literals of the source. *)
Definition dq : string :=
  String (Ascii false true false false false true false false) EmptyString.

(** How a template literal renders a value that may be [undefined]. *)
Definition render (v : option string) : string :=
  match v with
  | Some s => s
  | None => "undefined"
  end.

(** How a template literal renders an integer: in full decimal.  This is
    what JavaScript writes for the safe integers ([isSafeInteger]); a number
    of greater magnitude is written from its shortest digits, and from 10^21
    on in exponent form, which this rendering does not follow. *)
Definition renderZ (z : Z) : string := NilZero.string_of_int (Z.to_int z).

(** [Number.isSafeInteger(z)]: magnitude at most 2^53 - 1. *)
Definition isSafeInteger (z : Z) : bool := (Z.abs z <=? 9007199254740991)%Z.

End JS.

(** ** Errors *)

(** The values the adapter throws or passes on.

    Modelled from the spec: the classes [IOError] and
    [CantOpenFileTypeException] are declared in [error/errors] and
    [exceptions/CantOpenFileTypeException], which are not among the sources;
    section 7 of the specification lists them as error kinds that carry a
    message and nothing else.  [Error] is JavaScript's own.  [NativeError] is
    the object a native plugin rejected with, which may carry a numeric
    [status]. *)
Inductive JsError : Type :=
| IOError (message : string)
| CantOpenFileTypeException (message : string)
| Error (message : string)
| NativeError (status : option Z) (message : string).

(** [e.status]: only a native rejection has the property. *)
Definition status (e : JsError) : option Z :=
  match e with
  | NativeError st _ => st
  | _ => None
  end.

(** [e.status === 9]. *)
Definition status_is (e : JsError) (n : Z) : bool :=
  match status e with
  | Some st => Z.eqb st n
  | None => false
  end.

(** ** Promises *)

(** How the promise returned by an [async] call ends.  [Pending] is a promise
    that is never settled: whoever awaits it waits for ever. *)
Inductive Outcome (A : Type) : Type :=
| Fulfilled (a : A)
| Rejected (e : JsError)
| Pending.

Arguments Fulfilled {A} a.
Arguments Rejected {A} e.
Arguments Pending {A}.

(** How the promise of a native plugin call ends.  A plugin knows nothing of
    the adapter's error classes: it rejects with an object of its own. *)
Inductive NativeOutcome (A : Type) : Type :=
| Resolves (a : A)
| Rejects (status : option Z) (message : string)
| Hangs.

Arguments Resolves {A} a.
Arguments Rejects {A} status message.
Arguments Hangs {A}.

Definition settle {A} (r : NativeOutcome A) : Outcome A :=
  match r with
  | Resolves a => Fulfilled a
  | Rejects st msg => Rejected (NativeError st msg)
  | Hangs => Pending
  end.

(** [interface PathTuple]. *)
Record PathTuple : Type := mkPathTuple {
  absoluteBasePath : string;
  target : string
}.

Definition settled {A} (r : JsError + A) : Outcome A :=
  match r with
  | inl e => Rejected e
  | inr a => Fulfilled a
  end.

(** ** Path resolution, the part without effects

    The body of [getAbsolutePathInfo] once the base path has been awaited. *)
Definition invalidPathMessage (path : string) (targetName : option string) : string :=
  "Invalid path, unable to extract directory/file name. Got path " ++ JS.dq ++ path ++ JS.dq
  ++ " and directory/file " ++ JS.dq ++ JS.render targetName ++ JS.dq ++ ".".

Definition resolveFrom (basePath path : string) : JsError + PathTuple :=
  let pathFolders := basePath :: JS.split "/" path in
  let (targetName, pathFolders') := JS.pop pathFolders in
  match targetName with
  | None => inl (IOError (invalidPathMessage path targetName))
  | Some name =>
      if (0 <? String.length name)%nat
      then inl (IOError (invalidPathMessage path targetName))
      else inr {| absoluteBasePath := JS.join "/" pathFolders'; target := name |}
  end.

(** The terminal segment of a path: what [pop] removes from the split path.
    Since [split] answers at least one segment it is always there. *)
Definition terminalSegment (path : string) : option string :=
  fst (JS.pop (JS.split "/" path)).

(** The segments of a path before the terminal one. *)
Definition leadingSegments (path : string) : list string :=
  snd (JS.pop (JS.split "/" path)).


(** ** The device and the native plugins *)

(** [{create: false, exclusive: false}] *)
Record Flags : Type := mkFlags { create : bool; exclusive : bool }.

(** [{replace: true}] *)
Record IWriteOptions : Type := mkWriteOptions { replace : bool }.

Inductive LogLevel : Type := trace | debug | error.

(** How the native document viewer reports back: through which callback,
    and whether the callback runs while [previewFileFromUrlOrPath] is still
    executing or after it has returned (a Cordova plugin answers over the
    bridge, after the call has returned). *)
Inductive CallbackTiming : Type := DuringCall | AfterReturn.

Inductive PreviewReport : Type :=
| SuccessCallback (when : CallbackTiming) (msg : string)
| FailureCallback (when : CallbackTiming) (errorCode : Z)
| NoCallback.

Section Device.

(** The state of the device (its file system, its viewers) and the opaque
    handles the File plugin hands out. *)
Context {World DirectoryEntry FileEntry RemoveResult : Type}.

(** [FileEntry.toURL()]. *)
Variable toURL : FileEntry -> string.

(** What a native call answers: how its promise ends, and the device
    afterwards. *)
Definition Native (A : Type) : Type := World -> NativeOutcome A * World.

(** [File] of [@ionic-native/file]: the members the adapter uses. *)
Record File : Type := mkFile {
  externalApplicationStorageDirectory : string;
  dataDirectory : string;
  plugin_checkFile : string -> string -> Native bool;
  plugin_checkDir : string -> string -> Native bool;
  plugin_resolveDirectoryUrl : string -> Native DirectoryEntry;
  plugin_getDirectory : DirectoryEntry -> string -> Flags -> Native DirectoryEntry;
  plugin_getFile : DirectoryEntry -> string -> Flags -> Native FileEntry;
  plugin_writeFile : string -> string -> list Byte.byte -> IWriteOptions -> Native FileEntry;
  plugin_removeRecursively : string -> string -> Native RemoveResult
}.

(** [FileOpenerOriginal] of [@ionic-native/file-opener]. *)
Record FileOpenerOriginal : Type := mkFileOpener {
  plugin_open : string -> string -> Native unit
}.

(** [window["DocumentViewer"].previewFileFromUrlOrPath]: given the url and
    the optional type it reports through one of the two callbacks, or
    through none. *)
Variable DocumentViewer : string -> option string -> World -> PreviewReport * World.

(** The native capabilities, by the call that reaches them. *)
Inductive NativeCall : Type :=
| CheckFile (path file : string)
| CheckDir (path dir : string)
| ResolveDirectoryUrl (url : string)
| GetDirectory (parent : DirectoryEntry) (name : string) (flags : Flags)
| GetFile (parent : DirectoryEntry) (name : string) (flags : Flags)
| WriteFile (path file : string) (data : list Byte.byte) (options : IWriteOptions)
| RemoveRecursively (path dir : string)
| FileOpenerOpen (path type : string)
| PreviewFileFromUrlOrPath (url : string) (type : option string).

(** What an [async] function of the adapter runs against: the device, the
    native calls made so far (oldest first), the log, and the exceptions
    thrown inside a callback that native code invoked after the call had
    returned (they reach that invoker, not the adapter's caller). *)
Record State : Type := mkState {
  world : World;
  calls : list NativeCall;
  logged : list (string * LogLevel * string);
  thrownIntoNative : list JsError
}.

(** ** The monad of [async] functions *)

Definition M (A : Type) : Type := State -> Outcome A * State.

Definition ret {A} (a : A) : M A := fun st => (Fulfilled a, st).

Definition throw {A} (e : JsError) : M A := fun st => (Rejected e, st).

(** [await]: a rejection is thrown on, and awaiting a promise that never
    settles never resumes. *)
Definition bind {A B} (m : M A) (k : A -> M B) : M B :=
  fun st =>
    match m st with
    | (Fulfilled a, st') => k a st'
    | (Rejected e, st') => (Rejected e, st')
    | (Pending, st') => (Pending, st')
    end.

(** [try { body } catch (e) { handler }] *)
Definition try_catch {A} (body : M A) (handler : JsError -> M A) : M A :=
  fun st =>
    match body st with
    | (Rejected e, st') => handler e st'
    | done => done
    end.

Definition liftResult {A} (r : JsError + A) : M A :=
  match r with
  | inl e => throw e
  | inr a => ret a
  end.

(** An [async] call that changes nothing and makes no native call. *)
Definition untouched {A} (m : M A) (st : State) : Prop :=
  world (snd (m st)) = world st /\ calls (snd (m st)) = calls st.

(** A call of a native capability: it is recorded, and the plugin runs on
    the device. *)
Definition native {A} (c : NativeCall) (f : Native A) : M A :=
  fun st =>
    let (r, w) := f (world st) in
    (settle r, {| world := w; calls := calls st ++ [c];
           logged := logged st; thrownIntoNative := thrownIntoNative st |}).

(** [Logger]: a message under the logger's name. *)
Definition log (logger : string) (level : LogLevel) (msg : string) : M unit :=
  fun st =>
    (Fulfilled tt, {| world := world st; calls := calls st;
                      logged := logged st ++ [(logger, level, msg)];
                      thrownIntoNative := thrownIntoNative st |}).

(** An exception thrown inside a callback that native code runs after the
    call has returned. *)
Definition throwIntoNative (e : JsError) : M unit :=
  fun st =>
    (Fulfilled tt, {| world := world st; calls := calls st;
                      logged := logged st;
                      thrownIntoNative := thrownIntoNative st ++ [e] |}).

(** A promise nobody settles. *)
Definition never {A} : M A := fun st => (Pending, st).


Notation "x <- m ;; k" := (bind m (fun x => k))
  (at level 61, m at next level, right associativity).
Notation "m ;;; k" := (bind m (fun _ => k))
  (at level 61, right associativity).

(** ** [AbstractCordovaFilesystem] and its two subclasses

    An adapter is the object a constructor builds: the plugins it was
    given.  The abstract members dispatch on the subclass. *)
Inductive CordovaFilesystem : Type :=
| AndroidFilesystem (file : File) (fileOpener : FileOpenerOriginal)
| IOSFilesystem (file : File).

(** [this.file] *)
Definition file (this : CordovaFilesystem) : File :=
  match this with
  | AndroidFilesystem f _ => f
  | IOSFilesystem f => f
  end.

Definition getFilesystemBasePath (this : CordovaFilesystem) : M string :=
  match this with
  | AndroidFilesystem f _ => ret (externalApplicationStorageDirectory f)
  | IOSFilesystem f => ret (dataDirectory f)
  end.

(** The base path an adapter resolves against, as a value. *)
Definition basePathOf (this : CordovaFilesystem) : string :=
  match this with
  | AndroidFilesystem f _ => externalApplicationStorageDirectory f
  | IOSFilesystem f => dataDirectory f
  end.

Definition getAbsolutePathInfo (this : CordovaFilesystem) (path : string) : M PathTuple :=
  basePath <- getFilesystemBasePath this ;;
  liftResult (resolveFrom basePath path).

Definition delete (this : CordovaFilesystem) (path : string) : M RemoveResult :=
  pathInfo <- getAbsolutePathInfo this path ;;
  native (RemoveRecursively (absoluteBasePath pathInfo) (target pathInfo))
         (plugin_removeRecursively (file this) (absoluteBasePath pathInfo) (target pathInfo)).

Definition exists_ (this : CordovaFilesystem) (path : string) : M bool :=
  pathInfo <- getAbsolutePathInfo this path ;;
  isFile <- native (CheckFile (absoluteBasePath pathInfo) (target pathInfo))
                   (plugin_checkFile (file this) (absoluteBasePath pathInfo) (target pathInfo)) ;;
  if isFile then ret true
  else native (CheckDir (absoluteBasePath pathInfo) (target pathInfo))
              (plugin_checkDir (file this) (absoluteBasePath pathInfo) (target pathInfo)).

Definition noCreate : Flags := {| create := false; exclusive := false |}.

Definition getDirectory (this : CordovaFilesystem) (path : string) : M DirectoryEntry :=
  pathInfo <- getAbsolutePathInfo this path ;;
  parent <- native (ResolveDirectoryUrl (absoluteBasePath pathInfo))
                   (plugin_resolveDirectoryUrl (file this) (absoluteBasePath pathInfo)) ;;
  native (GetDirectory parent (target pathInfo) noCreate)
         (plugin_getDirectory (file this) parent (target pathInfo) noCreate).

Definition getFile (this : CordovaFilesystem) (path : string) : M FileEntry :=
  pathInfo <- getAbsolutePathInfo this path ;;
  directory <- getDirectory this (absoluteBasePath pathInfo) ;;
  native (GetFile directory (target pathInfo) noCreate)
         (plugin_getFile (file this) directory (target pathInfo) noCreate).

Definition save (this : CordovaFilesystem) (path : string) (data : list Byte.byte)
  : M FileEntry :=
  pathInfo <- getAbsolutePathInfo this path ;;
  native (WriteFile (absoluteBasePath pathInfo) (target pathInfo) data {| replace := true |})
         (plugin_writeFile (file this) (absoluteBasePath pathInfo) (target pathInfo) data
                           {| replace := true |}).

(** *** [AndroidFilesystem.open] *)

Definition unsupportedOnAndroid : string :=
  "Unable to open existing file on Android because the file type is not supported.".

(** The [try] block. *)
Definition androidOpenAttempt (this : CordovaFilesystem) (fileOpener : FileOpenerOriginal)
    (path type : string) : M unit :=
  log "AndroidFilesystem" debug
      ("Opening file in default application on Android: " ++ JS.dq ++ path ++ JS.dq) ;;;
  pathInfo <- getAbsolutePathInfo this path ;;
  native (FileOpenerOpen (absoluteBasePath pathInfo ++ "/" ++ target pathInfo) type)
         (plugin_open fileOpener (absoluteBasePath pathInfo ++ "/" ++ target pathInfo) type) ;;;
  log "AndroidFilesystem" trace "Existing file successfully opened on Android.".

(** The [catch] block. *)
Definition androidOpenHandler (e : JsError) : M unit :=
  if status_is e 9 then
    log "AndroidFilesystem" error unsupportedOnAndroid ;;;
    throw (CantOpenFileTypeException unsupportedOnAndroid)
  else
    log "AndroidFilesystem" error
        "Unable to open existing file on Android with a general error." ;;;
    throw e.

(** *** [IOSFilesystem.open] *)

Definition cantOpenOnIOS (errorCode : Z) : string :=
  "Unable to open existing file on iOS with error code: "
  ++ JS.dq ++ JS.renderZ errorCode ++ JS.dq.

(** [new Promise((resolve) => { ...previewFileFromUrlOrPath(success, failure,
    url, type) })].  The executor receives [resolve] only.  The success
    callback calls it.  The failure callback throws: while the executor is
    still running the exception leaves the executor and the constructor
    rejects the promise with it; once the executor has returned the
    exception reaches the native code that invoked the callback, and
    nothing settles the promise. *)
Definition previewFileFromUrlOrPath (url : string) (type : option string) : M unit :=
  report <- native (PreviewFileFromUrlOrPath url type)
                   (fun w => let (r, w') := DocumentViewer url type w in (Resolves r, w')) ;;
  match report with
  | SuccessCallback _ msg =>
      log "IOSFilesystem" trace
          ("Existing file successfully opened on iOS with message "
           ++ JS.dq ++ msg ++ JS.dq)
  | FailureCallback DuringCall errorCode =>
      log "IOSFilesystem" error (cantOpenOnIOS errorCode) ;;;
      throw (CantOpenFileTypeException (cantOpenOnIOS errorCode))
  | FailureCallback AfterReturn errorCode =>
      log "IOSFilesystem" error (cantOpenOnIOS errorCode) ;;;
      throwIntoNative (CantOpenFileTypeException (cantOpenOnIOS errorCode)) ;;;
      never
  | NoCallback => never
  end.

(** [open(path, type?)]: [type] is [None] when the caller leaves it out.
    Android defaults it to the empty string; iOS does not pass it on. *)
Definition open (this : CordovaFilesystem) (path : string) (type : option string) : M unit :=
  match this with
  | AndroidFilesystem _ fileOpener =>
      let type := match type with Some t => t | None => "" end in
      try_catch (androidOpenAttempt this fileOpener path type) androidOpenHandler
  | IOSFilesystem _ =>
      fileEntry <- getFile this path ;;
      let url := toURL fileEntry in
      log "IOSFilesystem" debug
          ("Opening file in default application on iOS: " ++ JS.dq ++ url ++ JS.dq) ;;;
      previewFileFromUrlOrPath url None
  end.

(** ** [CORDOVA_FILESYSTEM_FACTORY] *)

(** [Platform] of [@ionic/angular]: the query [platform.is(name)]. *)
Record Platform : Type := mkPlatform { is_ : string -> bool }.

Definition noSuitableImplementation : string :=
  "Cordova filesystem factory found no suitable implementation for the current platform.".

Definition CORDOVA_FILESYSTEM_FACTORY (platform : Platform) (file : File)
    (fileOpener2 : FileOpenerOriginal) : JsError + CordovaFilesystem :=
  if is_ platform "android" then inr (AndroidFilesystem file fileOpener2)
  else if is_ platform "ios" then inr (IOSFilesystem file)
  else inl (Error noSuitableImplementation).

End Device.

Arguments Native : clear implicits.
Arguments File : clear implicits.
Arguments FileOpenerOriginal : clear implicits.
Arguments NativeCall : clear implicits.
Arguments State : clear implicits.
Arguments M : clear implicits.
Arguments CordovaFilesystem : clear implicits.

(** ** A device to run the adapter on

    Files are kept by their full path; a directory is there when a file lies
    below it.  As the File plugin's promises allow, a check on a missing
    entry rejects with the plugin's own error object (it has a [code], no
    [status]).  Handles are the paths they stand for. *)
Module Sample.

Definition World : Type := list (string * list Byte.byte).

Definition fullPath (path name : string) : string := path ++ "/" ++ name.

Definition hasFile (p : string) (w : World) : bool :=
  existsb (fun entry => String.eqb (fst entry) p) w.

Definition hasDir (p : string) (w : World) : bool :=
  existsb (fun entry => String.prefix (p ++ "/") (fst entry)) w.

Definition notFound {A} : NativeOutcome A := Rejects None "NOT_FOUND_ERR".

Definition checkFile (path name : string) : Native World bool :=
  fun w => (if hasFile (fullPath path name) w then Resolves true else notFound, w).

Definition checkDir (path name : string) : Native World bool :=
  fun w => (if hasDir (fullPath path name) w then Resolves true else notFound, w).

Definition writeFile (path name : string) (data : list Byte.byte) (o : IWriteOptions)
  : Native World string :=
  fun w =>
    let p := fullPath path name in
    (Resolves p,
     (p, data) :: filter (fun entry => negb (String.eqb (fst entry) p)) w).

Definition removeRecursively (path name : string) : Native World unit :=
  fun w =>
    let p := fullPath path name in
    if hasFile p w || hasDir p w
    then (Resolves tt,
          filter (fun entry => negb (String.eqb (fst entry) p
                                     || String.prefix (p ++ "/") (fst entry))) w)
    else (notFound, w).

Definition device (externalDir dataDir : string) : File World string string unit :=
  {| externalApplicationStorageDirectory := externalDir;
     dataDirectory := dataDir;
     plugin_checkFile := checkFile;
     plugin_checkDir := checkDir;
     plugin_resolveDirectoryUrl := fun url w => (Resolves url, w);
     plugin_getDirectory := fun parent name _ w => (Resolves (fullPath parent name), w);
     plugin_getFile := fun parent name _ w => (Resolves (fullPath parent name), w);
     plugin_writeFile := writeFile;
     plugin_removeRecursively := removeRecursively |}.

(** A file opener that finds no application for the file (status 9), and
    one that fails for another reason. *)
Definition openerWithoutViewer : FileOpenerOriginal World :=
  {| plugin_open := fun _ _ w => (Rejects (Some 9%Z) "Activity not found", w) |}.

Definition openerWithoutFile : FileOpenerOriginal World :=
  {| plugin_open := fun _ _ w => (Rejects (Some 1%Z) "File not found", w) |}.

Definition toURL (entry : string) : string := "file://" ++ entry.

(** A document viewer that answers over the bridge: error code 53. *)
Definition viewerFailingLater (url : string) (type : option string) (w : World)
  : PreviewReport * World := (FailureCallback AfterReturn 53, w).

Definition viewerShowing (url : string) (type : option string) (w : World)
  : PreviewReport * World := (SuccessCallback AfterReturn "", w).

(** A document viewer that reports the failure before it returns. *)
Definition viewerFailingAtOnce (url : string) (type : option string) (w : World)
  : PreviewReport * World := (FailureCallback DuringCall 53, w).

Definition android (opener : FileOpenerOriginal World) : CordovaFilesystem World string string unit :=
  AndroidFilesystem (device "/root" "/data") opener.

Definition ios : CordovaFilesystem World string string unit :=
  IOSFilesystem (device "/ext" "/root").

(** Nothing stored, nothing called yet. *)
Definition start (w : World) : State World string :=
  {| world := w; calls := []; logged := []; thrownIntoNative := [] |}.

Definition onlyIs (name : string) : Platform := {| is_ := String.eqb name |}.

End Sample.

(** ** Reading the record of native calls *)

(** A call that only looks an entry up: a directory url resolved, or a
    directory or file fetched with neither [create] nor [exclusive] set. *)
Definition isLookup {DirectoryEntry : Type} (c : NativeCall DirectoryEntry) : bool :=
  match c with
  | ResolveDirectoryUrl _ => true
  | GetDirectory _ _ flags => negb (create flags) && negb (exclusive flags)
  | GetFile _ _ flags => negb (create flags) && negb (exclusive flags)
  | _ => false
  end.

(** The state after one native call [c] that left the device as [w]. *)
Definition afterCall {World DirectoryEntry : Type} (st : State World DirectoryEntry)
    (c : NativeCall DirectoryEntry) (w : World) : State World DirectoryEntry :=
  {| world := w; calls := calls st ++ [c];
     logged := logged st; thrownIntoNative := thrownIntoNative st |}.

(** * Properties *)

(** ** Splitting, joining and popping *)

Lemma split_not_nil (sep : ascii) (s : string) : JS.split sep s <> [].
Proof.
  destruct s as [|c rest]; simpl; [discriminate|].
  destruct (Ascii.eqb c sep); [discriminate|].
  destruct (JS.split sep rest); discriminate.
Qed.

Lemma join_cons (sep x : string) (l : list string) :
  l <> [] -> JS.join sep (x :: l) = x ++ sep ++ JS.join sep l.
Proof. destruct l; [congruence | reflexivity]. Qed.

Lemma string_app_assoc (a b c : string) : (a ++ b) ++ c = a ++ (b ++ c).
Proof. induction a; simpl; [reflexivity | now rewrite IHa]. Qed.

(** Joining what was split gives the string back. *)
Lemma join_split (sep : ascii) (s : string) :
  JS.join (String sep EmptyString) (JS.split sep s) = s.
Proof.
  induction s as [|c rest IH]; simpl; [reflexivity|].
  destruct (Ascii.eqb_spec c sep) as [->|Hne].
  - rewrite join_cons by apply split_not_nil. simpl. now rewrite IH.
  - pose proof (split_not_nil sep rest) as Hnil.
    destruct (JS.split sep rest) as [|seg segs]; [congruence|].
    destruct segs as [|seg' segs'].
    + simpl in *. now rewrite IH.
    + rewrite join_cons by discriminate.
      rewrite join_cons in IH by discriminate.
      change (String c seg ++ String sep "" ++ JS.join (String sep "") (seg' :: segs'))
        with (String c (seg ++ String sep "" ++ JS.join (String sep "") (seg' :: segs'))).
      now rewrite IH.
Qed.

Lemma pop_cons (x : string) (l : list string) :
  l <> [] -> JS.pop (x :: l) = (fst (JS.pop l), x :: snd (JS.pop l)).
Proof.
  destruct l as [|b l']; [congruence|]. intros _.
  change (JS.pop (x :: b :: l')) with
    (let (last, front) := JS.pop (b :: l') in (last, x :: front)).
  now destruct (JS.pop (b :: l')).
Qed.

(** [pop] takes the last element off: the array was the rest followed by it. *)
Lemma pop_some (l : list string) :
  l <> [] ->
  exists x, fst (JS.pop l) = Some x /\ l = (snd (JS.pop l) ++ [x])%list.
Proof.
  induction l as [|a l IH]; [congruence|]. intros _.
  destruct l as [|b l'].
  - exists a. now simpl.
  - destruct IH as [x [Hlast Hfront]]; [discriminate|].
    exists x. rewrite pop_cons by discriminate. cbn [fst snd].
    split; [exact Hlast|].
    change ((a :: snd (JS.pop (b :: l'))) ++ [x])%list
      with (a :: (snd (JS.pop (b :: l')) ++ [x]))%list.
    now rewrite <- Hfront.
Qed.

Lemma join_snoc (sep x : string) (l : list string) :
  l <> [] -> JS.join sep (l ++ [x])%list = JS.join sep l ++ sep ++ x.
Proof.
  induction l as [|a l IH]; [congruence|]. intros _.
  destruct l as [|b l'].
  - reflexivity.
  - change ((a :: b :: l') ++ [x])%list with (a :: ((b :: l') ++ [x])%list).
    rewrite join_cons by (simpl; discriminate).
    rewrite IH by discriminate.
    rewrite (join_cons sep a (b :: l')) by discriminate.
    now rewrite !string_app_assoc.
Qed.

(** Every path has a terminal segment. *)
Lemma terminalSegment_some (path : string) :
  exists name, terminalSegment path = Some name.
Proof.
  unfold terminalSegment.
  destruct (pop_some (JS.split "/" path) (split_not_nil _ _)) as [x [Hlast _]].
  now exists x.
Qed.

(** ** Path resolution *)

(** What the guard of [getAbsolutePathInfo] decides on: the terminal segment
    of the path.  It lets the empty one through and throws on any other. *)
Lemma resolveFrom_terminal (basePath path name : string) :
  terminalSegment path = Some name ->
  resolveFrom basePath path =
    if (0 <? String.length name)%nat
    then inl (IOError (invalidPathMessage path (Some name)))
    else inr {| absoluteBasePath := JS.join "/" (basePath :: leadingSegments path);
                target := name |}.
Proof.
  unfold terminalSegment, leadingSegments, resolveFrom. intros Hterm.
  rewrite pop_cons by apply split_not_nil. now rewrite Hterm.
Qed.

Lemma length_pos_iff (name : string) :
  (0 <? String.length name)%nat = true <-> name <> "".
Proof.
  destruct name; simpl; split; intros H; try congruence; try reflexivity.
  discriminate.
Qed.

Lemma leading_terminal_location (basePath path name : string) :
  terminalSegment path = Some name ->
  JS.join "/" (basePath :: leadingSegments path) ++ "/" ++ name = basePath ++ "/" ++ path.
Proof.
  intros Hterm.
  destruct (pop_some (JS.split "/" path) (split_not_nil _ _)) as [x [Hlast Hsplit]].
  unfold terminalSegment in Hterm. rewrite Hlast in Hterm.
  injection Hterm as ->. unfold leadingSegments.
  rewrite <- join_snoc by discriminate.
  change ((basePath :: snd (JS.pop (JS.split "/" path))) ++ [name])%list
    with (basePath :: (snd (JS.pop (JS.split "/" path)) ++ [name])%list).
  rewrite <- Hsplit.
  rewrite join_cons by apply split_not_nil.
  now rewrite (join_split "/" path).
Qed.

(** A resolved pair names the path below the base directory. *)
Lemma resolveFrom_location (basePath path : string) (pathInfo : PathTuple) :
  resolveFrom basePath path = inr pathInfo ->
  absoluteBasePath pathInfo ++ "/" ++ target pathInfo = basePath ++ "/" ++ path.
Proof.
  destruct (terminalSegment_some path) as [name Hterm].
  rewrite (resolveFrom_terminal basePath path name Hterm).
  destruct (0 <? String.length name)%nat; [discriminate|].
  intros [= <-]. exact (leading_terminal_location basePath path name Hterm).
Qed.

Lemma resolveFrom_target_empty (basePath path : string) (pathInfo : PathTuple) :
  resolveFrom basePath path = inr pathInfo -> target pathInfo = "".
Proof.
  destruct (terminalSegment_some path) as [name Hterm].
  rewrite (resolveFrom_terminal basePath path name Hterm).
  destruct name; simpl; [|discriminate]. now intros [= <-].
Qed.

(** The pairs that are returned: the target is empty, and the base path ends
    in the separator when the path ends in two. *)
Example resolved_pair_of_docs_slash_slash :
  resolveFrom "/root" "docs//" = inr {| absoluteBasePath := "/root/docs/"; target := "" |}
  /\ JS.endsWith "/root/docs/" "/" = true.
Proof. split; reflexivity. Qed.

Lemma resolveFrom_error (basePath path : string) (e : JsError) :
  resolveFrom basePath path = inl e -> exists msg, e = IOError msg.
Proof.
  destruct (terminalSegment_some path) as [name Hterm].
  rewrite (resolveFrom_terminal basePath path name Hterm).
  destruct (0 <? String.length name)%nat; [|discriminate].
  intros [= <-]. eauto.
Qed.

Section AdapterProperties.

Context {World DirectoryEntry FileEntry RemoveResult : Type}.
Variable toURL : FileEntry -> string.
Variable DocumentViewer : string -> option string -> World -> PreviewReport * World.

Local Abbreviation Adapter := (CordovaFilesystem World DirectoryEntry FileEntry RemoveResult).
Local Abbreviation St := (State World DirectoryEntry).

(** Resolution reads the base path and computes: the state is as before. *)
Lemma getAbsolutePathInfo_run (this : Adapter) (path : string) (st : St) :
  getAbsolutePathInfo this path st = (settled (resolveFrom (basePathOf this) path), st).
Proof.
  unfold getAbsolutePathInfo, bind.
  destruct this as [f fo | f]; simpl;
    destruct (resolveFrom _ path); reflexivity.
Qed.

Lemma getAbsolutePathInfo_fulfilled (this : Adapter) (path : string) (st : St)
    (pathInfo : PathTuple) :
  fst (getAbsolutePathInfo this path st) = Fulfilled pathInfo <->
  resolveFrom (basePathOf this) path = inr pathInfo.
Proof.
  rewrite getAbsolutePathInfo_run. simpl.
  destruct (resolveFrom (basePathOf this) path); simpl; split; congruence.
Qed.

Lemma getAbsolutePathInfo_rejected (this : Adapter) (path : string) (st : St)
    (e : JsError) :
  fst (getAbsolutePathInfo this path st) = Rejected e <->
  resolveFrom (basePathOf this) path = inl e.
Proof.
  rewrite getAbsolutePathInfo_run. simpl.
  destruct (resolveFrom (basePathOf this) path); simpl; split; congruence.
Qed.

(** C1 (the code does the opposite).  [getAbsolutePathInfo] rejects exactly
    when the terminal segment popped from the split path is a non-empty
    string, and returns a pair exactly when that segment is empty: the
    guard [targetName.length > 0] throws on the names it was meant to let
    through. *)
Theorem getAbsolutePathInfo_guard_inverted (this : Adapter) (path : string) (st : St) :
  ((exists e, fst (getAbsolutePathInfo this path st) = Rejected e) <->
   (exists name, terminalSegment path = Some name /\ name <> ""))
  /\
  ((exists pathInfo, fst (getAbsolutePathInfo this path st) = Fulfilled pathInfo) <->
   terminalSegment path = Some "").
Proof.
  rewrite getAbsolutePathInfo_run. cbn [fst].
  destruct (terminalSegment_some path) as [name Hterm].
  rewrite (resolveFrom_terminal _ path name Hterm), Hterm.
  destruct name as [|c name']; simpl.
  - split; split.
    + intros [e He]. discriminate.
    + intros [name [[= <-] Hne]]. congruence.
    + reflexivity.
    + eauto.
  - split; split.
    + intros _. exists (String c name'). split; [reflexivity | discriminate].
    + eauto.
    + intros [pathInfo H]. discriminate.
    + discriminate.
Qed.

(** C2 (the code fails here).  With base directory "/root" the path "a/b/c"
    is not resolved to the pair ("/root/a/b", "c"): the call rejects with
    the invalid-path error, naming "c" as the segment it could not
    extract. *)
Theorem resolving_a_b_c_below_root_rejects (this : Adapter) (st : St) :
  basePathOf this = "/root" ->
  getAbsolutePathInfo this "a/b/c" st =
    (Rejected (IOError (invalidPathMessage "a/b/c" (Some "c"))), st)
  /\ fst (getAbsolutePathInfo this "a/b/c" st) <>
       Fulfilled {| absoluteBasePath := "/root/a/b"; target := "c" |}.
Proof.
  intros Hbase. rewrite getAbsolutePathInfo_run, Hbase.
  split; [reflexivity | discriminate].
Qed.

(** The guard throws on every terminal segment that is a name. *)
Lemma resolution_rejects_a_name (this : Adapter) (path name : string) (st : St) :
  terminalSegment path = Some name ->
  name <> "" ->
  getAbsolutePathInfo this path st =
    (Rejected (IOError (invalidPathMessage path (Some name))), st).
Proof.
  intros Hterm Hne. rewrite getAbsolutePathInfo_run.
  rewrite (resolveFrom_terminal _ path name Hterm).
  apply length_pos_iff in Hne. now rewrite Hne.
Qed.

(** C3 (the code fails here).  On every path whose terminal segment is a
    non-empty string, resolution does not succeed: it rejects with the
    invalid-path error, leaves the state as it was, and returns no pair at
    all, so there is no pair for the invariant to hold of. *)
Theorem nonempty_terminal_is_rejected (this : Adapter) (path name : string) (st : St) :
  terminalSegment path = Some name ->
  name <> "" ->
  getAbsolutePathInfo this path st =
    (Rejected (IOError (invalidPathMessage path (Some name))), st)
  /\ forall pathInfo, fst (getAbsolutePathInfo this path st) <> Fulfilled pathInfo.
Proof.
  intros Hterm Hne. rewrite (resolution_rejects_a_name this path name st Hterm Hne).
  split; [reflexivity | discriminate].
Qed.

(** ** The common operations *)

Lemma native_run {A} (c : NativeCall DirectoryEntry) (f : Native World A) (st : St) :
  native c f st =
    (settle (fst (f (world st))),
     {| world := snd (f (world st)); calls := calls st ++ [c];
        logged := logged st; thrownIntoNative := thrownIntoNative st |}).
Proof. unfold native. now destruct (f (world st)). Qed.

(** Every operation that starts by resolving its path stops there when the
    resolution rejects. *)
Lemma bind_resolution_rejected {A} (this : Adapter) (path : string) (st : St)
    (e : JsError) (k : PathTuple -> M World DirectoryEntry A) :
  fst (getAbsolutePathInfo this path st) = Rejected e ->
  bind (getAbsolutePathInfo this path) k st = (Rejected e, st).
Proof.
  unfold bind. rewrite getAbsolutePathInfo_run. cbn [fst].
  destruct (resolveFrom (basePathOf this) path); simpl; congruence.
Qed.

Lemma bind_resolution_fulfilled {A} (this : Adapter) (path : string) (st : St)
    (pathInfo : PathTuple) (k : PathTuple -> M World DirectoryEntry A) :
  fst (getAbsolutePathInfo this path st) = Fulfilled pathInfo ->
  bind (getAbsolutePathInfo this path) k st = k pathInfo st.
Proof.
  unfold bind. rewrite getAbsolutePathInfo_run. cbn [fst].
  destruct (resolveFrom (basePathOf this) path); simpl; congruence.
Qed.

(** C4 (the code fails here).  On every path that ends in a name, [exists]
    asks the device nothing: it rejects with the invalid-path error of the
    guard, whether or not a file or a directory is there, and answers
    neither true nor false. *)
Theorem exists_rejects_named_path (this : Adapter) (path name : string) (st : St) :
  terminalSegment path = Some name ->
  name <> "" ->
  exists_ this path st = (Rejected (IOError (invalidPathMessage path (Some name))), st)
  /\ forall answer, fst (exists_ this path st) <> Fulfilled answer.
Proof.
  intros Hterm Hne.
  pose proof (resolution_rejects_a_name this path name st Hterm Hne) as Hrej.
  assert (Hrun : exists_ this path st =
                   (Rejected (IOError (invalidPathMessage path (Some name))), st)).
  { unfold exists_. apply bind_resolution_rejected. now rewrite Hrej. }
  rewrite Hrun. split; [reflexivity | discriminate].
Qed.

(** On a path that resolves, [save] is one call of the native [writeFile] at
    the resolved location, with [replace] set: the location [exists] then
    checks. *)
Lemma save_run (this : Adapter) (path : string) (data : list Byte.byte) (st : St)
    (pathInfo : PathTuple) :
  fst (getAbsolutePathInfo this path st) = Fulfilled pathInfo ->
  save this path data st =
    native (WriteFile (absoluteBasePath pathInfo) (target pathInfo) data {| replace := true |})
           (plugin_writeFile (file this) (absoluteBasePath pathInfo) (target pathInfo) data
                             {| replace := true |}) st.
Proof.
  intros Hres. unfold save. now rewrite (bind_resolution_fulfilled _ _ _ _ _ Hres).
Qed.


End AdapterProperties.

Lemma resolving_a_b_c_below_root_rejects_witness :
  basePathOf (Sample.android Sample.openerWithoutFile) = "/root" /\
  getAbsolutePathInfo (Sample.android Sample.openerWithoutFile) "a/b/c" (Sample.start []) =
    (Rejected (IOError (invalidPathMessage "a/b/c" (Some "c"))), Sample.start []).
Proof.
  split; [reflexivity|].
  apply (resolving_a_b_c_below_root_rejects
           (Sample.android Sample.openerWithoutFile) (Sample.start [])).
  reflexivity.
Defined.

Lemma nonempty_terminal_is_rejected_witness :
  terminalSegment "a/b/c" = Some "c" /\
  getAbsolutePathInfo Sample.ios "a/b/c" (Sample.start []) =
    (Rejected (IOError (invalidPathMessage "a/b/c" (Some "c"))), Sample.start []).
Proof.
  split; [reflexivity|].
  apply (nonempty_terminal_is_rejected Sample.ios "a/b/c" "c" (Sample.start []));
    [reflexivity | discriminate].
Defined.

Lemma exists_rejects_named_path_witness :
  terminalSegment "a/b/c" = Some "c"
  /\ Sample.hasFile "/root/a/b/c" [("/root/a/b/c", [])] = true
  /\ exists_ Sample.ios "a/b/c" (Sample.start [("/root/a/b/c", [])]) =
       (Rejected (IOError (invalidPathMessage "a/b/c" (Some "c"))),
        Sample.start [("/root/a/b/c", [])]).
Proof.
  split; [reflexivity|]. split; [reflexivity|].
  apply (exists_rejects_named_path Sample.ios "a/b/c" "c"
           (Sample.start [("/root/a/b/c", [])]));
    [reflexivity | discriminate].
Defined.


(** ** Opening a file, failing early, and the factory *)

Section OpeningProperties.

Context {World DirectoryEntry FileEntry RemoveResult : Type}.
Variable toURL : FileEntry -> string.
Variable DocumentViewer : string -> option string -> World -> PreviewReport * World.

Local Abbreviation Adapter := (CordovaFilesystem World DirectoryEntry FileEntry RemoveResult).
Local Abbreviation St := (State World DirectoryEntry).
Local Abbreviation Plugins := (File World DirectoryEntry FileEntry RemoveResult).

(** What the [try] block of [AndroidFilesystem.open] can throw: the
    invalid-path error of the resolution, or the file opener's rejection.
    Neither is a [CantOpenFileTypeException]. *)
Lemma androidOpenAttempt_rejection (this : Adapter) (fileOpener : FileOpenerOriginal World)
    (path type : string) (st : St) (e : JsError) :
  fst (androidOpenAttempt this fileOpener path type st) = Rejected e ->
  (exists msg, e = IOError msg) \/ (exists status msg, e = NativeError status msg).
Proof.
  unfold androidOpenAttempt, bind, log. rewrite getAbsolutePathInfo_run.
  destruct (resolveFrom (basePathOf this) path) as [e'|pathInfo] eqn:Hres; cbn [settled fst].
  - intros [= <-]. left. exact (resolveFrom_error _ _ _ Hres).
  - rewrite native_run. cbn [fst snd world].
    destruct (fst (plugin_open fileOpener _ type (world st))); cbn [settle fst];
      intros H; try discriminate.
    injection H as <-. right. eauto.
Qed.

(** The file opener's rejection is what the [try] block throws. *)
Lemma androidOpenAttempt_plugin_rejection (this : Adapter)
    (fileOpener : FileOpenerOriginal World) (path type : string) (st : St)
    (pathInfo : PathTuple) (status : option Z) (msg : string) :
  fst (getAbsolutePathInfo this path st) = Fulfilled pathInfo ->
  fst (plugin_open fileOpener (absoluteBasePath pathInfo ++ "/" ++ target pathInfo) type
                   (world st)) = Rejects status msg ->
  fst (androidOpenAttempt this fileOpener path type st) = Rejected (NativeError status msg).
Proof.
  intros Hres Hopen. apply getAbsolutePathInfo_fulfilled in Hres.
  unfold androidOpenAttempt, bind, log. rewrite getAbsolutePathInfo_run, Hres.
  cbn [settled]. rewrite native_run. cbn [fst snd world]. now rewrite Hopen.
Qed.

(** C6.  [AndroidFilesystem.open] rejects with a [CantOpenFileTypeException]
    exactly when the error thrown during the open attempt carries status 9;
    an error with any other status, or with none, is thrown on as it is;
    and when the attempt completes, so does [open]. *)
Theorem android_open_translates_exactly_status_9 (f : Plugins)
    (fileOpener : FileOpenerOriginal World) (path : string) (type : option string) (st : St) :
  let this := AndroidFilesystem f fileOpener in
  let attempt :=
    fst (androidOpenAttempt this fileOpener path
           (match type with Some t => t | None => "" end) st) in
  let result := fst (open toURL DocumentViewer this path type st) in
  ((exists msg, result = Rejected (CantOpenFileTypeException msg)) <->
   (exists e, attempt = Rejected e /\ status e = Some 9%Z))
  /\ (forall e, attempt = Rejected e -> status e <> Some 9%Z -> result = Rejected e)
  /\ (attempt = Fulfilled tt -> result = Fulfilled tt).
Proof.
  intros this attempt result.
  pose proof (androidOpenAttempt_rejection this fileOpener path
                (match type with Some t => t | None => "" end) st) as Hkind.
  fold attempt in Hkind.
  unfold result, open, this, try_catch. fold this.
  unfold attempt in *.
  destruct (androidOpenAttempt this fileOpener path _ st) as [[[]|e|] st'];
    cbn [fst] in *.
  - repeat split; try discriminate.
    + intros [msg H]. discriminate.
    + intros [e [H _]]. discriminate.
  - unfold androidOpenHandler, status_is, bind, log.
    destruct (Hkind e eq_refl) as [[msg ->]|[st9 [msg ->]]]; cbn [status].
    + cbn [fst throw]. repeat split.
      * intros [m H]. discriminate.
      * intros [e [[= <-] H]]. discriminate.
      * intros e [= <-] _. reflexivity.
      * discriminate.
    + destruct st9 as [z|]; [destruct (Z.eqb_spec z 9) as [->|Hz]|]; cbn [fst throw].
      * repeat split; eauto; try discriminate.
        intros e [= <-] H. now elim H.
      * repeat split; try discriminate.
        -- intros [m H]. discriminate.
        -- intros [e [[= <-] [= H]]]. contradiction.
        -- intros e [= <-] _. reflexivity.
      * repeat split; try discriminate.
        -- intros [m H]. discriminate.
        -- intros [e [[= <-] H]]. discriminate.
        -- intros e [= <-] _. reflexivity.
  - repeat split; try discriminate.
    + intros [msg H]. discriminate.
    + intros [e [H _]]. discriminate.
Qed.

(** *** The document viewer's callbacks *)

Lemma previewFileFromUrlOrPath_run (url : string) (type : option string) (st : St) :
  let report := fst (DocumentViewer url type (world st)) in
  fst (previewFileFromUrlOrPath DocumentViewer url type st) =
    match report with
    | SuccessCallback _ _ => Fulfilled tt
    | FailureCallback DuringCall errorCode =>
        Rejected (CantOpenFileTypeException (cantOpenOnIOS errorCode))
    | FailureCallback AfterReturn _ => Pending
    | NoCallback => Pending
    end.
Proof.
  unfold previewFileFromUrlOrPath, bind. rewrite native_run.
  destruct (DocumentViewer url type (world st)) as [report w'].
  cbn [fst snd settle].
  destruct report as [when msg|[|] errorCode|]; reflexivity.
Qed.

(** [IOSFilesystem.open] once the file entry is there: the url is logged
    and handed to the viewer. *)
Lemma ios_open_run (f : Plugins) (path : string) (type : option string) (st st1 : St)
    (entry : FileEntry) :
  getFile (IOSFilesystem f) path st = (Fulfilled entry, st1) ->
  open toURL DocumentViewer (IOSFilesystem f) path type st =
    previewFileFromUrlOrPath DocumentViewer (toURL entry) None
      {| world := world st1; calls := calls st1;
         logged := logged st1 ++
                   [("IOSFilesystem", debug,
                     "Opening file in default application on iOS: "
                     ++ JS.dq ++ toURL entry ++ JS.dq)];
         thrownIntoNative := thrownIntoNative st1 |}.
Proof.
  intros Hget. unfold open. unfold bind at 1. rewrite Hget. reflexivity.
Qed.

Lemma previewFileFromUrlOrPath_failure_later (url : string) (type : option string)
    (st : St) (errorCode : Z) :
  fst (DocumentViewer url type (world st)) = FailureCallback AfterReturn errorCode ->
  let run := previewFileFromUrlOrPath DocumentViewer url type st in
  fst run = Pending
  /\ thrownIntoNative (snd run) =
       (thrownIntoNative st ++ [CantOpenFileTypeException (cantOpenOnIOS errorCode)])%list.
Proof.
  intros Hview. unfold previewFileFromUrlOrPath, bind. rewrite native_run.
  destruct (DocumentViewer url type (world st)) as [report w'].
  cbn [fst] in Hview. subst report. split; reflexivity.
Qed.

(** The success callback calls [resolve]: [open] completes. *)
Lemma ios_open_success_callback_resolves (f : Plugins) (path : string)
    (type : option string) (st st1 : St) (entry : FileEntry)
    (when : CallbackTiming) (msg : string) :
  getFile (IOSFilesystem f) path st = (Fulfilled entry, st1) ->
  fst (DocumentViewer (toURL entry) None (world st1)) = SuccessCallback when msg ->
  fst (open toURL DocumentViewer (IOSFilesystem f) path type st) = Fulfilled tt.
Proof.
  intros Hget Hview. rewrite (ios_open_run f path type st st1 entry Hget).
  rewrite previewFileFromUrlOrPath_run. cbn [world]. now rewrite Hview.
Qed.

(** A failure callback that runs while the viewer is still being called
    throws through the executor: the promise is rejected. *)
Lemma ios_open_failure_during_call_rejects (f : Plugins) (path : string)
    (type : option string) (st st1 : St) (entry : FileEntry) (errorCode : Z) :
  getFile (IOSFilesystem f) path st = (Fulfilled entry, st1) ->
  fst (DocumentViewer (toURL entry) None (world st1)) = FailureCallback DuringCall errorCode ->
  fst (open toURL DocumentViewer (IOSFilesystem f) path type st) =
    Rejected (CantOpenFileTypeException (cantOpenOnIOS errorCode)).
Proof.
  intros Hget Hview. rewrite (ios_open_run f path type st st1 entry Hget).
  rewrite previewFileFromUrlOrPath_run. cbn [world]. now rewrite Hview.
Qed.

(** C7 (the code fails here).  When the document viewer answers through
    the failure callback after [previewFileFromUrlOrPath] has returned, the
    [CantOpenFileTypeException] that embeds the error code is thrown into
    the native code that ran the callback.  The promise of [open] is
    neither rejected nor fulfilled: its caller receives nothing. *)
Theorem ios_open_failure_callback_leaves_caller_waiting (f : Plugins) (path : string)
    (type : option string) (st st1 : St) (entry : FileEntry) (errorCode : Z) :
  getFile (IOSFilesystem f) path st = (Fulfilled entry, st1) ->
  fst (DocumentViewer (toURL entry) None (world st1)) = FailureCallback AfterReturn errorCode ->
  let run := open toURL DocumentViewer (IOSFilesystem f) path type st in
  fst run = Pending
  /\ (forall e, fst run <> Rejected e)
  /\ thrownIntoNative (snd run) =
       (thrownIntoNative st1 ++ [CantOpenFileTypeException (cantOpenOnIOS errorCode)])%list.
Proof.
  intros Hget Hview run. unfold run.
  rewrite (ios_open_run f path type st st1 entry Hget).
  match goal with
  | |- fst (previewFileFromUrlOrPath _ _ _ ?logged) = _ /\ _ =>
      destruct (previewFileFromUrlOrPath_failure_later (toURL entry) None logged
                  errorCode Hview) as [Hpending Hthrown]
  end.
  rewrite Hpending. repeat split; [discriminate | exact Hthrown].
Qed.

(** X15.  When the resolution of a path rejects, [delete], [exists], [save]
    and [open] reject with that same error, the device is as it was, and
    no native capability has been called. *)
Theorem invalid_path_reaches_no_native_capability (this : Adapter) (path : string)
    (data : list Byte.byte) (type : option string) (st : St) (e : JsError) :
  fst (getAbsolutePathInfo this path st) = Rejected e ->
  (fst (delete this path st) = Rejected e /\ untouched (delete this path) st)
  /\ (fst (exists_ this path st) = Rejected e /\ untouched (exists_ this path) st)
  /\ (fst (save this path data st) = Rejected e /\ untouched (save this path data) st)
  /\ (fst (open toURL DocumentViewer this path type st) = Rejected e
      /\ untouched (open toURL DocumentViewer this path type) st).
Proof.
  intros Hrej. unfold untouched.
  split; [|split; [|split]].
  - unfold delete. now rewrite (bind_resolution_rejected _ _ _ _ _ Hrej).
  - unfold exists_. now rewrite (bind_resolution_rejected _ _ _ _ _ Hrej).
  - unfold save. now rewrite (bind_resolution_rejected _ _ _ _ _ Hrej).
  - apply getAbsolutePathInfo_rejected in Hrej.
    destruct (resolveFrom_error _ _ _ Hrej) as [msg ->].
    destruct this as [f fileOpener | f].
    + unfold open, try_catch, androidOpenAttempt, bind, log.
      rewrite getAbsolutePathInfo_run, Hrej. now cbn.
    + unfold open, getFile, bind.
      rewrite getAbsolutePathInfo_run, Hrej. now cbn.
Qed.

(** C9 (the code fails here).  A path whose terminal segment is blank, the
    empty path or one that ends in the separator, is not refused: the
    resolution returns a pair with the empty name, and [delete], [exists],
    [save] and [AndroidFilesystem.open] call the device with it.  None of
    them raises the invalid-path error. *)
Theorem blank_terminal_reaches_native (this : Adapter) (path : string)
    (data : list Byte.byte) (type : option string) (st : St) :
  terminalSegment path = Some "" ->
  exists dir,
    getAbsolutePathInfo this path st =
      (Fulfilled {| absoluteBasePath := dir; target := "" |}, st)
    /\ (calls (snd (delete this path st)) = (calls st ++ [RemoveRecursively dir ""])%list
        /\ forall msg, fst (delete this path st) <> Rejected (IOError msg))
    /\ ((exists more,
           calls (snd (exists_ this path st)) = (calls st ++ CheckFile dir "" :: more)%list)
        /\ forall msg, fst (exists_ this path st) <> Rejected (IOError msg))
    /\ (calls (snd (save this path data st)) =
          (calls st ++ [WriteFile dir "" data {| replace := true |}])%list
        /\ forall msg, fst (save this path data st) <> Rejected (IOError msg))
    /\ (forall f fileOpener, this = AndroidFilesystem f fileOpener ->
        calls (snd (open toURL DocumentViewer this path type st)) =
          (calls st ++ [FileOpenerOpen (dir ++ "/")
                          (match type with Some t => t | None => "" end)])%list
        /\ forall msg, fst (open toURL DocumentViewer this path type st)
                       <> Rejected (IOError msg)).
Proof.
  intros Hterm.
  pose proof (resolveFrom_terminal (basePathOf this) path "" Hterm) as Hres.
  change (0 <? String.length "")%nat with false in Hres. cbv iota in Hres.
  set (dir := JS.join "/" (basePathOf this :: leadingSegments path)) in *.
  exists dir.
  assert (Hrun : getAbsolutePathInfo this path st =
                   (Fulfilled {| absoluteBasePath := dir; target := "" |}, st))
    by now rewrite getAbsolutePathInfo_run, Hres.
  assert (Hok : fst (getAbsolutePathInfo this path st) =
                  Fulfilled {| absoluteBasePath := dir; target := "" |})
    by now rewrite Hrun.
  split; [exact Hrun|]. split; [|split; [|split]].
  - unfold delete. rewrite (bind_resolution_fulfilled _ _ _ _ _ Hok).
    rewrite native_run. cbn [absoluteBasePath target fst snd calls].
    split; [reflexivity|].
    intros msg. destruct (fst (plugin_removeRecursively (file this) dir "" (world st)));
      discriminate.
  - unfold exists_. rewrite (bind_resolution_fulfilled _ _ _ _ _ Hok).
    unfold bind. rewrite native_run. cbn [absoluteBasePath target].
    destruct (fst (plugin_checkFile (file this) dir "" (world st)))
      as [[|]|status msg|]; cbn [settle].
    + split; [now exists [] | discriminate].
    + rewrite native_run. cbn [fst snd calls world].
      split.
      * exists [CheckDir dir ""]. now rewrite <- app_assoc.
      * intros msg. destruct (fst (plugin_checkDir (file this) dir "" _)); discriminate.
    + split; [now exists [] | discriminate].
    + split; [now exists [] | discriminate].
  - unfold save. rewrite (bind_resolution_fulfilled _ _ _ _ _ Hok).
    rewrite native_run. cbn [absoluteBasePath target fst snd calls].
    split; [reflexivity|].
    intros msg.
    destruct (fst (plugin_writeFile (file this) dir "" data {| replace := true |} (world st)));
      discriminate.
  - intros f fileOpener ->.
    unfold open, try_catch, androidOpenAttempt, bind, log.
    rewrite getAbsolutePathInfo_run, Hres. cbn [settled].
    rewrite native_run. cbn [absoluteBasePath target world].
    change (dir ++ "/" ++ "") with (dir ++ "/").
    destruct (fst (plugin_open fileOpener (dir ++ "/") _ (world st)))
      as [[]|status msg|]; cbn [settle fst snd calls].
    + split; [reflexivity | discriminate].
    + unfold androidOpenHandler, bind, log.
      destruct (status_is (NativeError status msg) 9); cbn;
        (split; [reflexivity | discriminate]).
    + split; [reflexivity | discriminate].
Qed.

Lemma string_length_append (a b : string) :
  String.length (a ++ b) = (String.length a + String.length b)%nat.
Proof. induction a as [|c a IH]; simpl; [reflexivity | now rewrite IH]. Qed.

(** C10 (amended).  [getFile] hands the absolute base path of its resolved
    path to [getDirectory], which resolves it once more, and
    [IOSFilesystem.open] begins with [getFile].  When either resolution
    rejects, both reject with that error and the device is not asked.
    Otherwise the device is asked for the pair of the second resolution,
    which lies at the base path followed by the already absolute base path
    and, on an adapter whose base path is not empty, is not the absolute
    base path of the first. *)
Theorem getFile_and_ios_open_resolve_directory_twice (this : Adapter) (path : string)
    (type : option string) (st : St) :
  match resolveFrom (basePathOf this) path with
  | inl e =>
      getFile this path st = (Rejected e, st)
      /\ (forall f, this = IOSFilesystem f ->
          open toURL DocumentViewer this path type st = (Rejected e, st))
  | inr pathInfo =>
      match resolveFrom (basePathOf this) (absoluteBasePath pathInfo) with
      | inl e =>
          getFile this path st = (Rejected e, st)
          /\ (forall f, this = IOSFilesystem f ->
              open toURL DocumentViewer this path type st = (Rejected e, st))
      | inr again =>
          let lookup :=
            bind (native (ResolveDirectoryUrl (absoluteBasePath again))
                         (plugin_resolveDirectoryUrl (file this) (absoluteBasePath again)))
              (fun parent =>
               bind (native (GetDirectory parent (target again) noCreate)
                            (plugin_getDirectory (file this) parent (target again) noCreate))
                 (fun directory =>
                  native (GetFile directory (target pathInfo) noCreate)
                         (plugin_getFile (file this) directory (target pathInfo) noCreate))) in
          absoluteBasePath again ++ "/" ++ target again =
            basePathOf this ++ "/" ++ absoluteBasePath pathInfo
          /\ (basePathOf this <> "" ->
              absoluteBasePath again <> absoluteBasePath pathInfo)
          /\ getFile this path st = lookup st
          /\ (forall f, this = IOSFilesystem f ->
              open toURL DocumentViewer this path type st =
                bind lookup
                  (fun fileEntry =>
                   bind (log "IOSFilesystem" debug
                           ("Opening file in default application on iOS: "
                            ++ JS.dq ++ toURL fileEntry ++ JS.dq))
                     (fun _ => previewFileFromUrlOrPath DocumentViewer
                                 (toURL fileEntry) None)) st)
      end
  end.
Proof.
  destruct (resolveFrom (basePathOf this) path) as [e|pathInfo] eqn:Hfirst.
  - assert (Hget : getFile this path st = (Rejected e, st)).
    { unfold getFile, bind. now rewrite getAbsolutePathInfo_run, Hfirst. }
    split; [exact Hget|]. intros f ->.
    unfold open. unfold bind at 1. now rewrite Hget.
  - destruct (resolveFrom (basePathOf this) (absoluteBasePath pathInfo))
      as [e|again] eqn:Hsecond.
    + assert (Hget : getFile this path st = (Rejected e, st)).
      { unfold getFile. unfold bind at 1. rewrite getAbsolutePathInfo_run, Hfirst.
        cbn [settled]. unfold getDirectory. unfold bind at 1. unfold bind at 1.
        now rewrite getAbsolutePathInfo_run, Hsecond. }
      split; [exact Hget|]. intros f ->.
      unfold open. unfold bind at 1. now rewrite Hget.
    + intros lookup.
      assert (Hget : getFile this path st = lookup st).
      { unfold getFile. unfold bind at 1. rewrite getAbsolutePathInfo_run, Hfirst.
        cbn [settled]. unfold getDirectory. unfold bind at 1. unfold bind at 1.
        rewrite getAbsolutePathInfo_run, Hsecond. cbn [settled].
        unfold lookup, bind.
        destruct (native (ResolveDirectoryUrl _) _ st) as [[parent|e|] st'];
          reflexivity. }
      pose proof (resolveFrom_location _ _ _ Hsecond) as Hloc.
      split; [exact Hloc|]. split; [|split; [exact Hget|]].
      * intros Hbase Hsame.
        rewrite (resolveFrom_target_empty _ _ _ Hsecond), Hsame in Hloc.
        apply (f_equal String.length) in Hloc.
        rewrite !string_length_append in Hloc. cbn [String.length] in Hloc.
        destruct (basePathOf this); [congruence|]. cbn [String.length] in Hloc. lia.
      * intros f ->. unfold open. unfold bind at 1. rewrite Hget.
        unfold bind at 3. reflexivity.
Qed.

(** C8.  The factory answers by the platform's identity: the Android
    adapter on "android", the iOS adapter on "ios", and an error on a
    platform that is neither; no adapter stands in. *)
Theorem factory_selects_by_platform (platform : Platform) (f : Plugins)
    (fileOpener2 : FileOpenerOriginal World) :
  (is_ platform "android" = true ->
   CORDOVA_FILESYSTEM_FACTORY platform f fileOpener2 = inr (AndroidFilesystem f fileOpener2))
  /\ (is_ platform "android" = false -> is_ platform "ios" = true ->
      CORDOVA_FILESYSTEM_FACTORY platform f fileOpener2 = inr (IOSFilesystem f))
  /\ (is_ platform "android" = false -> is_ platform "ios" = false ->
      CORDOVA_FILESYSTEM_FACTORY platform f fileOpener2 =
        inl (Error noSuitableImplementation)).
Proof.
  unfold CORDOVA_FILESYSTEM_FACTORY.
  repeat split; intros; repeat match goal with H : is_ _ _ = _ |- _ => rewrite H; clear H end;
    reflexivity.
Qed.

End OpeningProperties.

(** ** Runs on the sample device *)

Lemma android_open_translates_exactly_status_9_witness :
  fst (androidOpenAttempt (Sample.android Sample.openerWithoutViewer)
         Sample.openerWithoutViewer "docs/" "" (Sample.start [])) =
    Rejected (NativeError (Some 9%Z) "Activity not found")
  /\ exists msg,
       fst (open Sample.toURL Sample.viewerShowing
              (Sample.android Sample.openerWithoutViewer) "docs/" None (Sample.start [])) =
         Rejected (CantOpenFileTypeException msg).
Proof.
  split; [reflexivity|].
  pose proof (android_open_translates_exactly_status_9 Sample.toURL Sample.viewerShowing
                (Sample.device "/root" "/data") Sample.openerWithoutViewer "docs/" None
                (Sample.start [])) as H.
  cbv zeta in H. destruct H as [[_ Hback] _]. apply Hback.
  exists (NativeError (Some 9%Z) "Activity not found"). split; reflexivity.
Defined.

Lemma ios_open_failure_callback_leaves_caller_waiting_witness :
  getFile Sample.ios "docs//" (Sample.start []) =
    (Fulfilled "/root//root/docs//", snd (getFile Sample.ios "docs//" (Sample.start [])))
  /\ fst (open Sample.toURL Sample.viewerFailingLater Sample.ios "docs//" None
            (Sample.start [])) = Pending.
Proof.
  split; [reflexivity|].
  apply (ios_open_failure_callback_leaves_caller_waiting
           Sample.toURL Sample.viewerFailingLater (Sample.device "/ext" "/root") "docs//" None
           (Sample.start []) (snd (getFile Sample.ios "docs//" (Sample.start [])))
           "/root//root/docs//" 53%Z);
    reflexivity.
Defined.

Lemma factory_selects_by_platform_witness :
  is_ (Sample.onlyIs "ios") "android" = false
  /\ is_ (Sample.onlyIs "ios") "ios" = true
  /\ CORDOVA_FILESYSTEM_FACTORY (Sample.onlyIs "ios") (Sample.device "/ext" "/root")
       Sample.openerWithoutFile = inr Sample.ios.
Proof.
  split; [reflexivity|]. split; [reflexivity|].
  apply (factory_selects_by_platform (Sample.onlyIs "ios") (Sample.device "/ext" "/root")
           Sample.openerWithoutFile); reflexivity.
Defined.

Lemma invalid_path_reaches_no_native_capability_witness :
  fst (getAbsolutePathInfo (Sample.android Sample.openerWithoutFile) "a/b/c"
         (Sample.start [])) =
    Rejected (IOError (invalidPathMessage "a/b/c" (Some "c")))
  /\ fst (open Sample.toURL Sample.viewerShowing (Sample.android Sample.openerWithoutFile)
            "a/b/c" None (Sample.start [])) =
       Rejected (IOError (invalidPathMessage "a/b/c" (Some "c"))).
Proof.
  split; [reflexivity|].
  apply (invalid_path_reaches_no_native_capability Sample.toURL Sample.viewerShowing
           (Sample.android Sample.openerWithoutFile) "a/b/c" [] None (Sample.start [])
           (IOError (invalidPathMessage "a/b/c" (Some "c")))).
  reflexivity.
Defined.

Lemma blank_terminal_reaches_native_witness :
  terminalSegment "" = Some ""
  /\ calls (snd (delete Sample.ios "" (Sample.start [("/root/notes.txt", [])]))) =
       [RemoveRecursively "/root" ""].
Proof.
  split; [reflexivity|].
  destruct (blank_terminal_reaches_native Sample.toURL Sample.viewerShowing Sample.ios ""
              [] None (Sample.start [("/root/notes.txt", [])]) eq_refl)
    as [dir [Hres [[Hdelete _] _]]].
  injection Hres as <-. exact Hdelete.
Defined.

(** C10 as stated fails.  On an adapter whose base path is empty, the path
    that is the separator alone resolves to the directory "/", and the
    directory [getFile] has the device look up is that same "/". *)
Lemma doubly_resolved_directory_coincides_on_empty_base :
  fst (getAbsolutePathInfo (IOSFilesystem (Sample.device "/ext" "")) "/" (Sample.start [])) =
    Fulfilled {| absoluteBasePath := "/"; target := "" |}
  /\ resolveFrom "" "/" = inr {| absoluteBasePath := "/"; target := "" |}
  /\ calls (snd (getFile (IOSFilesystem (Sample.device "/ext" "")) "/" (Sample.start []))) =
       [ResolveDirectoryUrl "/"; GetDirectory "/" "" noCreate; GetFile "//" "" noCreate].
Proof. repeat split. Qed.

Lemma getFile_and_ios_open_resolve_directory_twice_witness :
  resolveFrom (basePathOf Sample.ios) "docs//" =
    inr {| absoluteBasePath := "/root/docs/"; target := "" |}
  /\ resolveFrom (basePathOf Sample.ios) "/root/docs/" =
       inr {| absoluteBasePath := "/root//root/docs"; target := "" |}
  /\ "/root//root/docs" <> "/root/docs/".
Proof.
  split; [reflexivity|]. split; [reflexivity|].
  pose proof (getFile_and_ios_open_resolve_directory_twice Sample.toURL Sample.viewerShowing
                Sample.ios "docs//" None (Sample.start [])) as H.
  cbv beta iota zeta delta [resolveFrom basePathOf Sample.ios Sample.device dataDirectory
                            JS.split JS.pop JS.join String.length Nat.ltb Nat.leb
                            Ascii.eqb Bool.eqb append absoluteBasePath target] in H.
  destruct H as [_ [Hdiffer _]]. apply Hdiffer. discriminate.
Defined.

(** * Further properties of the adapter *)

(** ** Which paths pass the guard *)

Lemma pop_tail_last (x : string) (l : list string) :
  l <> [] -> fst (JS.pop (x :: l)) = fst (JS.pop l).
Proof. intros Hl. now rewrite pop_cons. Qed.

(** What follows the last separator is the terminal segment. *)
Lemma split_after_separator (a b : string) :
  exists seg segs,
    JS.split "/" (a ++ "/" ++ b) = seg :: segs
    /\ segs <> []
    /\ fst (JS.pop segs) = terminalSegment b.
Proof.
  induction a as [|c a IH].
  - exists "", (JS.split "/" b). repeat split. apply split_not_nil.
  - destruct IH as [seg [segs [Hsplit [Hne Hlast]]]].
    change (JS.split "/" (String c a ++ "/" ++ b))
      with (if Ascii.eqb c "/" then EmptyString :: JS.split "/" (a ++ "/" ++ b)
            else match JS.split "/" (a ++ "/" ++ b) with
                 | [] => [String c EmptyString]
                 | seg :: segs => String c seg :: segs
                 end).
    rewrite Hsplit. destruct (Ascii.eqb c "/").
    + exists "", (seg :: segs). repeat split; [discriminate|].
      now rewrite pop_tail_last.
    + exists (String c seg), segs. now repeat split.
Qed.

Lemma terminalSegment_append (a b : string) :
  terminalSegment (a ++ "/" ++ b) = terminalSegment b.
Proof.
  destruct (split_after_separator a b) as [seg [segs [Hsplit [Hne Hlast]]]].
  unfold terminalSegment at 1. rewrite Hsplit. now rewrite pop_tail_last.
Qed.

Lemma append_separator_not_empty (a : string) : a ++ "/" <> "".
Proof. destruct a; discriminate. Qed.

Lemma append_separator_cancel (a b : string) : a ++ "/" = b ++ "/" -> a = b.
Proof.
  revert b. induction a as [|c a IH]; intros [|d b] H; simpl in H.
  - reflexivity.
  - injection H as _ H. symmetry in H. now apply append_separator_not_empty in H.
  - injection H as _ H. now apply append_separator_not_empty in H.
  - injection H as -> H. f_equal. now apply IH.
Qed.

Lemma append_cancel_left (a b c : string) : a ++ b = a ++ c -> b = c.
Proof. induction a as [|x a IH]; simpl; intros H; [exact H | injection H as H; auto]. Qed.

Lemma prefix_append (a b : string) : String.prefix a (a ++ b) = true.
Proof.
  induction a as [|c a IH]; simpl.
  - now destruct b.
  - destruct (ascii_dec c c); [exact IH | congruence].
Qed.

Lemma prefix_refl (a : string) : String.prefix a a = true.
Proof.
  induction a as [|c a IH]; simpl; [reflexivity|].
  destruct (ascii_dec c c); [exact IH | congruence].
Qed.

(** The terminal segment is empty exactly on the empty path and on the paths
    that end in the separator. *)
Lemma terminalSegment_empty_iff (path : string) :
  terminalSegment path = Some "" <-> path = "" \/ exists p, path = p ++ "/".
Proof.
  split.
  - intros Hterm.
    destruct (pop_some (JS.split "/" path) (split_not_nil _ _)) as [x [Hlast Hsplit]].
    unfold terminalSegment in Hterm. rewrite Hlast in Hterm. injection Hterm as ->.
    pose proof (join_split "/" path) as Hjoin. rewrite Hsplit in Hjoin.
    destruct (snd (JS.pop (JS.split "/" path))) as [|seg segs] eqn:Hlead.
    + left. now rewrite <- Hjoin.
    + right. exists (JS.join "/" (seg :: segs)).
      rewrite join_snoc in Hjoin by discriminate. now rewrite <- Hjoin.
  - intros [->|[p ->]]; [reflexivity|].
    exact (terminalSegment_append p "").
Qed.

Section FurtherProperties.

Context {World DirectoryEntry FileEntry RemoveResult : Type}.
Variable toURL : FileEntry -> string.
Variable DocumentViewer : string -> option string -> World -> PreviewReport * World.

Local Abbreviation Adapter := (CordovaFilesystem World DirectoryEntry FileEntry RemoveResult).
Local Abbreviation St := (State World DirectoryEntry).
Local Abbreviation Plugins := (File World DirectoryEntry FileEntry RemoveResult).

Lemma resolved_target_empty (this : Adapter) (path : string) (st : St) (pathInfo : PathTuple) :
  fst (getAbsolutePathInfo this path st) = Fulfilled pathInfo -> target pathInfo = "".
Proof.
  intros Hres. apply getAbsolutePathInfo_fulfilled in Hres.
  exact (resolveFrom_target_empty _ _ _ Hres).
Qed.

(** X1.  The paths [getAbsolutePathInfo] resolves are the empty path and the
    paths that end in the separator; every other path is rejected. *)
Theorem resolution_accepts_only_trailing_separator (this : Adapter) (path : string) (st : St) :
  (exists pathInfo, fst (getAbsolutePathInfo this path st) = Fulfilled pathInfo)
  <-> (path = "" \/ exists p, path = p ++ "/").
Proof.
  rewrite <- terminalSegment_empty_iff.
  rewrite getAbsolutePathInfo_run. cbn [fst].
  destruct (terminalSegment_some path) as [name Hterm].
  rewrite (resolveFrom_terminal _ path name Hterm), Hterm.
  destruct name as [|c name']; simpl; split.
  - reflexivity.
  - eauto.
  - intros [pathInfo H]. discriminate.
  - discriminate.
Qed.

(** X2.  A resolved pair has the empty name as its target, and its base path
    is the adapter's base path followed by the path without its closing
    separator: it begins with the base path, and with a separator added it
    reads base path, separator, path. *)
Theorem resolved_pair_shape (this : Adapter) (path : string) (st : St)
    (pathInfo : PathTuple) :
  fst (getAbsolutePathInfo this path st) = Fulfilled pathInfo ->
  target pathInfo = ""
  /\ absoluteBasePath pathInfo ++ "/" = basePathOf this ++ "/" ++ path
  /\ String.prefix (basePathOf this) (absoluteBasePath pathInfo) = true.
Proof.
  intros Hres. pose proof (resolved_target_empty _ _ _ _ Hres) as Htarget.
  apply getAbsolutePathInfo_fulfilled in Hres.
  pose proof (resolveFrom_location _ _ _ Hres) as Hloc. rewrite Htarget in Hloc.
  split; [exact Htarget|]. split; [exact Hloc|].
  destruct (terminalSegment_some path) as [name Hterm].
  rewrite (resolveFrom_terminal _ path name Hterm) in Hres.
  destruct (0 <? String.length name)%nat; [discriminate|].
  injection Hres as <-. cbn [absoluteBasePath].
  destruct (leadingSegments path) as [|seg segs].
  - apply prefix_refl.
  - exact (prefix_append (basePathOf this) ("/" ++ JS.join "/" (seg :: segs))).
Qed.

(** X3.  Two paths that resolve to the same pair on one adapter are the same
    path. *)
Theorem resolution_is_injective (this : Adapter) (path1 path2 : string) (st1 st2 : St)
    (pathInfo : PathTuple) :
  fst (getAbsolutePathInfo this path1 st1) = Fulfilled pathInfo ->
  fst (getAbsolutePathInfo this path2 st2) = Fulfilled pathInfo ->
  path1 = path2.
Proof.
  intros H1 H2.
  apply getAbsolutePathInfo_fulfilled in H1. apply getAbsolutePathInfo_fulfilled in H2.
  apply resolveFrom_location in H1. apply resolveFrom_location in H2.
  rewrite H1 in H2.
  apply append_cancel_left in H2. now apply append_cancel_left in H2.
Qed.

(** ** What the common operations ask of the device *)

(** X4.  On a path that resolves, [delete] is one call of the native
    [removeRecursively], for the entry with the empty name in the resolved
    directory; what the plugin answers is what [delete] answers, a rejection
    included, and the device is left as the plugin left it. *)
Theorem delete_removes_resolved_entry (this : Adapter) (path : string) (st : St)
    (pathInfo : PathTuple) :
  fst (getAbsolutePathInfo this path st) = Fulfilled pathInfo ->
  let answer :=
    plugin_removeRecursively (file this) (absoluteBasePath pathInfo) "" (world st) in
  delete this path st =
    (settle (fst answer),
     afterCall st (RemoveRecursively (absoluteBasePath pathInfo) "") (snd answer)).
Proof.
  intros Hres answer. pose proof (resolved_target_empty _ _ _ _ Hres) as Htarget.
  unfold delete. rewrite (bind_resolution_fulfilled _ _ _ _ _ Hres), Htarget.
  now rewrite native_run.
Qed.

(** X5.  On a path that resolves, [exists] asks [checkFile] first and asks
    [checkDir] only when [checkFile] answered false: when [checkFile] answers
    true, rejects or does not answer, that is the outcome and [checkDir] is
    never called. *)
Theorem exists_asks_directory_only_after_file (this : Adapter) (path : string) (st : St)
    (pathInfo : PathTuple) :
  fst (getAbsolutePathInfo this path st) = Fulfilled pathInfo ->
  let dir := absoluteBasePath pathInfo in
  let checkedFile := plugin_checkFile (file this) dir "" (world st) in
  let afterFile := afterCall st (CheckFile dir "") (snd checkedFile) in
  let checkedDir := plugin_checkDir (file this) dir "" (snd checkedFile) in
  exists_ this path st =
    match fst checkedFile with
    | Resolves false =>
        (settle (fst checkedDir), afterCall afterFile (CheckDir dir "") (snd checkedDir))
    | answer => (settle answer, afterFile)
    end.
Proof.
  intros Hres dir checkedFile afterFile checkedDir.
  pose proof (resolved_target_empty _ _ _ _ Hres) as Htarget.
  unfold exists_. rewrite (bind_resolution_fulfilled _ _ _ _ _ Hres), Htarget.
  unfold bind. rewrite native_run. fold dir checkedFile.
  destruct (fst checkedFile) as [[|]|status msg|] eqn:Hfile; cbn [settle]; try reflexivity.
  now rewrite native_run.
Qed.

(** X6.  On a path that resolves, [save] is one call of the native
    [writeFile] with the buffer as given and [replace] set, for the entry
    with the empty name in the resolved directory; the plugin's answer is
    [save]'s answer. *)
Theorem save_writes_once_with_replace (this : Adapter) (path : string)
    (data : list Byte.byte) (st : St) (pathInfo : PathTuple) :
  fst (getAbsolutePathInfo this path st) = Fulfilled pathInfo ->
  let dir := absoluteBasePath pathInfo in
  let answer := plugin_writeFile (file this) dir "" data {| replace := true |} (world st) in
  save this path data st =
    (settle (fst answer),
     afterCall st (WriteFile dir "" data {| replace := true |}) (snd answer)).
Proof.
  intros Hres dir answer. pose proof (resolved_target_empty _ _ _ _ Hres) as Htarget.
  unfold save. rewrite (bind_resolution_fulfilled _ _ _ _ _ Hres), Htarget.
  now rewrite native_run.
Qed.

(** ** Looking entries up *)

(** X7.  On a path that resolves, [getDirectory] first has the resolved
    directory's url resolved and fetches the directory, with the empty name
    and without creating it, only from the parent it got: when the url is
    not resolved, that is the outcome and the native [getDirectory] is never
    called. *)
Theorem getDirectory_needs_parent (this : Adapter) (path : string) (st : St)
    (pathInfo : PathTuple) :
  fst (getAbsolutePathInfo this path st) = Fulfilled pathInfo ->
  let dir := absoluteBasePath pathInfo in
  let resolved := plugin_resolveDirectoryUrl (file this) dir (world st) in
  let afterUrl := afterCall st (ResolveDirectoryUrl dir) (snd resolved) in
  getDirectory this path st =
    match fst resolved with
    | Resolves parent =>
        let fetched := plugin_getDirectory (file this) parent "" noCreate (snd resolved) in
        (settle (fst fetched),
         afterCall afterUrl (GetDirectory parent "" noCreate) (snd fetched))
    | answer => (settle answer, afterUrl)
    end.
Proof.
  intros Hres dir resolved afterUrl.
  pose proof (resolved_target_empty _ _ _ _ Hres) as Htarget.
  unfold getDirectory. rewrite (bind_resolution_fulfilled _ _ _ _ _ Hres), Htarget.
  unfold bind. rewrite native_run. fold dir resolved.
  destruct (fst resolved) as [parent|status msg|]; cbn [settle]; try reflexivity.
  now rewrite native_run.
Qed.

(** X8.  Whatever the path and whatever the device answers, [getFile] makes
    at most three native calls and each of them is a lookup: a url resolved,
    or a directory or file fetched with [create] and [exclusive] off.  It
    never writes, removes or creates. *)
Theorem getFile_only_looks_up (this : Adapter) (path : string) (st : St) :
  exists asked,
    calls (snd (getFile this path st)) = (calls st ++ asked)%list
    /\ forallb isLookup asked = true
    /\ (List.length asked <= 3)%nat.
Proof.
  unfold getFile, bind. rewrite getAbsolutePathInfo_run.
  destruct (resolveFrom (basePathOf this) path) as [e|pathInfo]; cbn [settled].
  { exists []. cbn. rewrite app_nil_r. repeat split. lia. }
  unfold getDirectory, bind. rewrite getAbsolutePathInfo_run.
  destruct (resolveFrom (basePathOf this) (absoluteBasePath pathInfo)) as [e|again];
    cbn [settled].
  { exists []. cbn. rewrite app_nil_r. repeat split. lia. }
  rewrite native_run.
  destruct (fst (plugin_resolveDirectoryUrl (file this) (absoluteBasePath again) (world st)))
    as [parent|status msg|]; cbn [settle].
  - rewrite native_run. cbn [world].
    destruct (fst (plugin_getDirectory (file this) parent (target again) noCreate _))
      as [directory|status msg|]; cbn [settle].
    + rewrite native_run. cbn [snd calls].
      exists [ResolveDirectoryUrl (absoluteBasePath again);
              GetDirectory parent (target again) noCreate;
              GetFile directory (target pathInfo) noCreate].
      repeat split; [|cbn; lia].
      now rewrite <- !app_assoc.
    + exists [ResolveDirectoryUrl (absoluteBasePath again);
              GetDirectory parent (target again) noCreate].
      cbn [snd calls]. repeat split; [|cbn; lia]. now rewrite <- !app_assoc.
    + exists [ResolveDirectoryUrl (absoluteBasePath again);
              GetDirectory parent (target again) noCreate].
      cbn [snd calls]. repeat split; [|cbn; lia]. now rewrite <- !app_assoc.
  - exists [ResolveDirectoryUrl (absoluteBasePath again)].
    cbn [snd calls]. repeat split. cbn; lia.
  - exists [ResolveDirectoryUrl (absoluteBasePath again)].
    cbn [snd calls]. repeat split. cbn; lia.
Qed.

(** ** Opening a file, by what the plugins answer *)

(** X9.  On a path that resolves, [AndroidFilesystem.open] asks the file
    opener once, for the base path, a separator and the path as given, with
    the type or the empty string in its place.  It completes when the opener
    does, turns a rejection with status 9 into the fixed
    [CantOpenFileTypeException] (the opener's own message is dropped), passes
    any other rejection on as it is, and does not answer when the opener
    does not. *)
Theorem android_open_asks_opener_for_base_and_path (f : Plugins)
    (fileOpener : FileOpenerOriginal World) (path : string) (type : option string)
    (st : St) (pathInfo : PathTuple) :
  fst (getAbsolutePathInfo (AndroidFilesystem f fileOpener) path st) = Fulfilled pathInfo ->
  let location := externalApplicationStorageDirectory f ++ "/" ++ path in
  let hint := match type with Some t => t | None => "" end in
  let answer := plugin_open fileOpener location hint (world st) in
  let run := open toURL DocumentViewer (AndroidFilesystem f fileOpener) path type st in
  calls (snd run) = (calls st ++ [FileOpenerOpen location hint])%list
  /\ world (snd run) = snd answer
  /\ fst run =
       match fst answer with
       | Resolves _ => Fulfilled tt
       | Rejects status msg =>
           if status_is (NativeError status msg) 9
           then Rejected (CantOpenFileTypeException unsupportedOnAndroid)
           else Rejected (NativeError status msg)
       | Hangs => Pending
       end.
Proof.
  intros Hres location hint answer run.
  apply getAbsolutePathInfo_fulfilled in Hres.
  pose proof (resolveFrom_location _ _ _ Hres) as Hloc. cbn [basePathOf] in Hloc, Hres.
  unfold run, open, try_catch, androidOpenAttempt, bind, log.
  rewrite getAbsolutePathInfo_run. cbn [basePathOf]. rewrite Hres. cbn [settled].
  rewrite native_run. cbn [world]. rewrite Hloc. fold location hint answer.
  destruct (fst answer) as [[]|status msg|]; cbn [settle fst snd calls world].
  - repeat split.
  - unfold androidOpenHandler, bind, log.
    destruct (status_is (NativeError status msg) 9); cbn; repeat split.
  - repeat split.
Qed.

(** X10.  Once [getFile] has fetched the entry, [IOSFilesystem.open] asks
    the document viewer once, for the entry's url and without a type,
    whatever type the caller gave.  It completes when the viewer reports
    success; it rejects with the [CantOpenFileTypeException] that embeds the
    error code when the failure is reported while the viewer is being
    called; and it never settles when the failure is reported later or
    nothing is reported.  The error code is a safe integer, which the
    message writes in full. *)
Theorem ios_open_follows_viewer_report (f : Plugins) (path : string) (type : option string)
    (st st1 : St) (entry : FileEntry) :
  getFile (IOSFilesystem f) path st = (Fulfilled entry, st1) ->
  let report := DocumentViewer (toURL entry) None (world st1) in
  (forall when errorCode,
      fst report = FailureCallback when errorCode -> JS.isSafeInteger errorCode = true) ->
  let run := open toURL DocumentViewer (IOSFilesystem f) path type st in
  calls (snd run) = (calls st1 ++ [PreviewFileFromUrlOrPath (toURL entry) None])%list
  /\ world (snd run) = snd report
  /\ fst run =
       match fst report with
       | SuccessCallback _ _ => Fulfilled tt
       | FailureCallback DuringCall errorCode =>
           Rejected (CantOpenFileTypeException (cantOpenOnIOS errorCode))
       | FailureCallback AfterReturn _ => Pending
       | NoCallback => Pending
       end.
Proof.
  intros Hget report _ run. unfold run.
  rewrite (ios_open_run toURL DocumentViewer f path type st st1 entry Hget).
  unfold previewFileFromUrlOrPath, bind. rewrite native_run. cbn [world].
  fold report. destruct report as [[when msg|[|] errorCode|] w']; cbn; repeat split.
Qed.

(** ** The adapter the factory builds *)

(** X11.  The adapter the factory returns holds the File plugin it was
    given, and resolves paths against the external application storage
    directory when the platform is Android and against the data directory
    otherwise. *)
Theorem factory_adapter_base_path (platform : Platform) (f : Plugins)
    (fileOpener2 : FileOpenerOriginal World) (adapter : Adapter) (path : string) (st : St) :
  CORDOVA_FILESYSTEM_FACTORY platform f fileOpener2 = inr adapter ->
  file adapter = f
  /\ getFilesystemBasePath adapter st =
       (Fulfilled (if is_ platform "android"
                   then externalApplicationStorageDirectory f
                   else dataDirectory f), st)
  /\ getAbsolutePathInfo adapter path st =
       (settled (resolveFrom (if is_ platform "android"
                              then externalApplicationStorageDirectory f
                              else dataDirectory f) path), st).
Proof.
  unfold CORDOVA_FILESYSTEM_FACTORY. intros Hbuilt.
  rewrite getAbsolutePathInfo_run.
  destruct (is_ platform "android").
  - injection Hbuilt as <-. repeat split.
  - destruct (is_ platform "ios"); [|discriminate].
    injection Hbuilt as <-. repeat split.
Qed.

(** ** Which paths reach the device through [getFile] *)

Lemma resolveFrom_accepts_iff (basePath path : string) :
  (exists pathInfo, resolveFrom basePath path = inr pathInfo)
  <-> terminalSegment path = Some "".
Proof.
  destruct (terminalSegment_some path) as [name Hterm].
  rewrite (resolveFrom_terminal basePath path name Hterm), Hterm.
  destruct name as [|c name']; simpl; split.
  - reflexivity.
  - eauto.
  - intros [pathInfo H]. discriminate.
  - discriminate.
Qed.

Lemma resolveFrom_directory (basePath path : string) (pathInfo : PathTuple) :
  resolveFrom basePath path = inr pathInfo ->
  absoluteBasePath pathInfo ++ "/" = basePath ++ "/" ++ path.
Proof.
  intros Hres. pose proof (resolveFrom_location _ _ _ Hres) as Hloc.
  now rewrite (resolveFrom_target_empty _ _ _ Hres) in Hloc.
Qed.

(** With a base path that ends in a name, a path passes the guard twice,
    itself and then its resolved base path, exactly when it is the separator
    alone or ends in two separators. *)
Lemma double_resolution_shape (basePath path name : string) :
  terminalSegment basePath = Some name ->
  name <> "" ->
  (exists pathInfo again,
      resolveFrom basePath path = inr pathInfo
      /\ resolveFrom basePath (absoluteBasePath pathInfo) = inr again)
  <-> (path = "/" \/ exists p, path = p ++ "//").
Proof.
  intros Hbase Hname. split.
  - intros [pathInfo [again [Hfirst Hsecond]]].
    pose proof (resolveFrom_directory _ _ _ Hfirst) as Hdir.
    assert (Hterm1 : terminalSegment path = Some "")
      by (apply (resolveFrom_accepts_iff basePath); eauto).
    assert (Hterm2 : terminalSegment (absoluteBasePath pathInfo) = Some "")
      by (apply (resolveFrom_accepts_iff basePath); eauto).
    apply terminalSegment_empty_iff in Hterm1. destruct Hterm1 as [->|[p ->]].
    + apply append_separator_cancel in Hdir. rewrite Hdir, Hbase in Hterm2.
      injection Hterm2 as ->. congruence.
    + change (basePath ++ "/" ++ p ++ "/") with (basePath ++ ("/" ++ p) ++ "/") in Hdir.
      rewrite <- string_app_assoc in Hdir.
      apply append_separator_cancel in Hdir.
      rewrite Hdir, terminalSegment_append in Hterm2.
      apply terminalSegment_empty_iff in Hterm2. destruct Hterm2 as [->|[q ->]].
      * now left.
      * right. exists q. now rewrite string_app_assoc.
  - intros Hshape.
    assert (Hterm1 : terminalSegment path = Some "").
    { destruct Hshape as [->|[p ->]]; [reflexivity|].
      exact (terminalSegment_append p "/"). }
    destruct (proj2 (resolveFrom_accepts_iff basePath path) Hterm1) as [pathInfo Hfirst].
    exists pathInfo.
    pose proof (resolveFrom_directory _ _ _ Hfirst) as Hdir.
    assert (Hterm2 : terminalSegment (absoluteBasePath pathInfo) = Some "").
    { destruct Hshape as [->|[p ->]].
      - change (basePath ++ "/" ++ "/") with (basePath ++ "/" ++ "" ++ "/") in Hdir.
        change (basePath ++ "/" ++ "" ++ "/") with (basePath ++ ("/" ++ "") ++ "/") in Hdir.
        rewrite <- string_app_assoc in Hdir.
        apply append_separator_cancel in Hdir. rewrite Hdir.
        exact (terminalSegment_append basePath "").
      - assert (Heq : basePath ++ "/" ++ p ++ "//" = (basePath ++ "/" ++ p ++ "/") ++ "/")
          by (rewrite !string_app_assoc; reflexivity).
        rewrite Heq in Hdir.
        apply append_separator_cancel in Hdir. rewrite Hdir.
        rewrite terminalSegment_append.
        exact (terminalSegment_append p ""). }
    destruct (proj2 (resolveFrom_accepts_iff basePath _) Hterm2) as [again Hsecond].
    now exists again.
Qed.

(** [getFile] stops at either resolution that rejects, and asks the device
    once both have passed. *)
Lemma getFile_gate (this : Adapter) (path : string) (st : St) :
  match resolveFrom (basePathOf this) path with
  | inl e => getFile this path st = (Rejected e, st)
  | inr pathInfo =>
      match resolveFrom (basePathOf this) (absoluteBasePath pathInfo) with
      | inl e => getFile this path st = (Rejected e, st)
      | inr again =>
          exists asked,
            calls (snd (getFile this path st)) =
              (calls st ++ ResolveDirectoryUrl (absoluteBasePath again) :: asked)%list
      end
  end.
Proof.
  unfold getFile, bind. rewrite getAbsolutePathInfo_run.
  destruct (resolveFrom (basePathOf this) path) as [e|pathInfo]; cbn [settled];
    [reflexivity|].
  unfold getDirectory, bind. rewrite getAbsolutePathInfo_run.
  destruct (resolveFrom (basePathOf this) (absoluteBasePath pathInfo)) as [e|again];
    cbn [settled]; [reflexivity|].
  rewrite native_run.
  destruct (fst (plugin_resolveDirectoryUrl (file this) (absoluteBasePath again) (world st)))
    as [parent|status msg|]; cbn [settle].
  - rewrite native_run. cbn [world].
    destruct (fst (plugin_getDirectory (file this) parent (target again) noCreate _))
      as [directory|status msg|]; cbn [settle].
    + rewrite native_run. cbn [snd calls]. rewrite <- !app_assoc. cbn [app]. eauto.
    + cbn [snd calls]. rewrite <- !app_assoc. cbn [app]. eauto.
    + cbn [snd calls]. rewrite <- !app_assoc. cbn [app]. eauto.
  - cbn [snd calls]. now exists [].
  - cbn [snd calls]. now exists [].
Qed.

Lemma gate_shape (this : Adapter) (path name : string) :
  terminalSegment (basePathOf this) = Some name ->
  name <> "" ->
  (path = "/" \/ exists p, path = p ++ "//")
  \/ (~ (path = "/" \/ exists p, path = p ++ "//")
      /\ exists msg,
           match resolveFrom (basePathOf this) path with
           | inl e => e = IOError msg
           | inr pathInfo =>
               resolveFrom (basePathOf this) (absoluteBasePath pathInfo) = inl (IOError msg)
           end).
Proof.
  intros Hbase Hname.
  pose proof (double_resolution_shape (basePathOf this) path name Hbase Hname) as Hshape.
  destruct (resolveFrom (basePathOf this) path) as [e|pathInfo] eqn:Hfirst.
  - right. split.
    + intros H. apply Hshape in H. destruct H as [? [? [H _]]]. discriminate.
    + exact (resolveFrom_error _ _ _ Hfirst).
  - destruct (resolveFrom (basePathOf this) (absoluteBasePath pathInfo))
      as [e|again] eqn:Hsecond.
    + right. split.
      * intros H. apply Hshape in H. destruct H as [pathInfo' [again [[= <-] H]]].
        congruence.
      * destruct (resolveFrom_error _ _ _ Hsecond) as [msg ->]. eauto.
    + left. apply Hshape. eauto.
Qed.

(** X12.  On an adapter whose base path ends in a name, [getFile] asks the
    device only for the path that is the separator alone and for the paths
    that end in two separators.  Every other path is rejected with the
    invalid-path error before any native call: by the guard on the path
    itself, or by the same guard on the resolved base path that [getFile]
    hands to [getDirectory]. *)
Theorem getFile_reaches_device_on_double_separator (this : Adapter) (path name : string)
    (st : St) :
  terminalSegment (basePathOf this) = Some name ->
  name <> "" ->
  ((path = "/" \/ exists p, path = p ++ "//")
   /\ exists asked, asked <> []
        /\ calls (snd (getFile this path st)) = (calls st ++ asked)%list)
  \/ (~ (path = "/" \/ exists p, path = p ++ "//")
      /\ exists msg, getFile this path st = (Rejected (IOError msg), st)).
Proof.
  intros Hbase Hname.
  pose proof (double_resolution_shape (basePathOf this) path name Hbase Hname) as Hshape.
  pose proof (getFile_gate this path st) as Hgate.
  destruct (gate_shape this path name Hbase Hname) as [Hyes|[Hno [msg Hmsg]]].
  - left. split; [exact Hyes|].
    apply Hshape in Hyes. destruct Hyes as [pathInfo [again [Hfirst Hsecond]]].
    rewrite Hfirst, Hsecond in Hgate. destruct Hgate as [asked Hcalls].
    eexists. split; [|exact Hcalls]. discriminate.
  - right. split; [exact Hno|]. exists msg.
    destruct (resolveFrom (basePathOf this) path) as [e|pathInfo].
    + now rewrite Hgate, Hmsg.
    + rewrite Hmsg in Hgate. exact Hgate.
Qed.

(** X13.  On an iOS adapter whose data directory ends in a name,
    [IOSFilesystem.open] reaches the device only for the path that is the
    separator alone and for the paths that end in two separators.  On every
    other path it rejects with the invalid-path error, and neither the File
    plugin nor the document viewer has been called. *)
Theorem ios_open_reaches_device_on_double_separator (f : Plugins) (path name : string)
    (type : option string) (st : St) :
  terminalSegment (dataDirectory f) = Some name ->
  name <> "" ->
  let run := open toURL DocumentViewer (IOSFilesystem f) path type st in
  ((path = "/" \/ exists p, path = p ++ "//")
   /\ exists asked, asked <> [] /\ calls (snd run) = (calls st ++ asked)%list)
  \/ (~ (path = "/" \/ exists p, path = p ++ "//")
      /\ exists msg, run = (Rejected (IOError msg), st)).
Proof.
  intros Hbase Hname run.
  pose proof (double_resolution_shape (dataDirectory f) path name Hbase Hname) as Hshape.
  pose proof (getFile_gate (IOSFilesystem f) path st) as Hgate. cbn [basePathOf] in Hgate.
  destruct (gate_shape (IOSFilesystem f) path name Hbase Hname) as [Hyes|[Hno [msg Hmsg]]].
  - left. split; [exact Hyes|].
    apply Hshape in Hyes. destruct Hyes as [pathInfo [again [Hfirst Hsecond]]].
    rewrite Hfirst, Hsecond in Hgate. destruct Hgate as [asked Hcalls].
    unfold run, open. unfold bind at 1.
    destruct (getFile (IOSFilesystem f) path st) as [[entry|e|] st1]; cbn [snd] in Hcalls.
    + unfold bind at 1. unfold log at 1. cbn beta iota.
      unfold previewFileFromUrlOrPath, bind. rewrite native_run. cbn [world calls].
      exists (ResolveDirectoryUrl (absoluteBasePath again)
                :: asked ++ [PreviewFileFromUrlOrPath (toURL entry) None])%list.
      split; [discriminate|].
      destruct (DocumentViewer (toURL entry) None (world st1)) as [[when m|[|] code|] w'];
        cbn; rewrite Hcalls; rewrite <- !app_assoc; reflexivity.
    + exists (ResolveDirectoryUrl (absoluteBasePath again) :: asked).
      split; [discriminate | exact Hcalls].
    + exists (ResolveDirectoryUrl (absoluteBasePath again) :: asked).
      split; [discriminate | exact Hcalls].
  - right. split; [exact Hno|]. exists msg. cbn [basePathOf] in Hmsg.
    assert (Hget : getFile (IOSFilesystem f) path st = (Rejected (IOError msg), st)).
    { destruct (resolveFrom (dataDirectory f) path) as [e|pathInfo].
      - now rewrite Hgate, Hmsg.
      - rewrite Hmsg in Hgate. exact Hgate. }
    unfold run, open. unfold bind at 1. now rewrite Hget.
Qed.

(** ** Saving, then asking *)

(** X14.  On a device whose [checkFile] finds what [writeFile] has written,
    a [save] that completes is followed by an [exists] on the same path that
    answers true: both resolve the path to the same directory and name. *)
Theorem save_then_exists_on_resolved_path (this : Adapter) (path : string)
    (data : list Byte.byte) (st st' : St) (entry : FileEntry) :
  (forall dir name bytes options w written,
      fst (plugin_writeFile (file this) dir name bytes options w) = Resolves written ->
      fst (plugin_checkFile (file this) dir name
             (snd (plugin_writeFile (file this) dir name bytes options w))) = Resolves true) ->
  save this path data st = (Fulfilled entry, st') ->
  fst (exists_ this path st') = Fulfilled true.
Proof.
  intros Hlaw Hsave. unfold save, exists_, bind in *.
  rewrite getAbsolutePathInfo_run in *.
  destruct (resolveFrom (basePathOf this) path) as [e|pathInfo]; cbn [settled] in *;
    [discriminate|].
  rewrite native_run in Hsave. injection Hsave as Hanswer <-.
  rewrite native_run. cbn [world].
  destruct (fst (plugin_writeFile (file this) (absoluteBasePath pathInfo) (target pathInfo)
                   data {| replace := true |} (world st))) as [written|status msg|] eqn:Hwrite;
    cbn [settle] in Hanswer; try discriminate.
  now rewrite (Hlaw _ _ _ _ _ _ Hwrite).
Qed.

End FurtherProperties.

(** ** Further runs on the sample device *)

Lemma resolved_pair_shape_witness :
  fst (getAbsolutePathInfo Sample.ios "docs/" (Sample.start [])) =
    Fulfilled {| absoluteBasePath := "/root/docs"; target := "" |}
  /\ "/root/docs" ++ "/" = "/root" ++ "/" ++ "docs/"
  /\ String.prefix "/root" "/root/docs" = true.
Proof.
  split; [reflexivity|].
  apply (resolved_pair_shape Sample.ios "docs/" (Sample.start [])
           {| absoluteBasePath := "/root/docs"; target := "" |}).
  reflexivity.
Defined.

Lemma resolution_is_injective_witness :
  fst (getAbsolutePathInfo Sample.ios "docs/" (Sample.start [])) =
    Fulfilled {| absoluteBasePath := "/root/docs"; target := "" |}
  /\ "docs/" = "docs/".
Proof.
  split; [reflexivity|].
  apply (resolution_is_injective Sample.ios "docs/" "docs/" (Sample.start [])
           (Sample.start [("/root/docs/", [])])
           {| absoluteBasePath := "/root/docs"; target := "" |});
    reflexivity.
Defined.

Lemma delete_removes_resolved_entry_witness :
  fst (getAbsolutePathInfo Sample.ios "docs/" (Sample.start [])) =
    Fulfilled {| absoluteBasePath := "/root/docs"; target := "" |}
  /\ delete Sample.ios "docs/" (Sample.start []) =
       (Rejected (NativeError None "NOT_FOUND_ERR"),
        afterCall (Sample.start []) (RemoveRecursively "/root/docs" "") []).
Proof.
  split; [reflexivity|].
  pose proof (delete_removes_resolved_entry Sample.ios "docs/" (Sample.start [])
                {| absoluteBasePath := "/root/docs"; target := "" |} eq_refl) as H.
  cbv zeta in H. rewrite H. reflexivity.
Defined.

Lemma exists_asks_directory_only_after_file_witness :
  fst (getAbsolutePathInfo Sample.ios "docs/" (Sample.start [("/root/docs/", [])])) =
    Fulfilled {| absoluteBasePath := "/root/docs"; target := "" |}
  /\ exists_ Sample.ios "docs/" (Sample.start [("/root/docs/", [])]) =
       (Fulfilled true,
        afterCall (Sample.start [("/root/docs/", [])]) (CheckFile "/root/docs" "")
                  [("/root/docs/", [])]).
Proof.
  split; [reflexivity|].
  pose proof (exists_asks_directory_only_after_file Sample.ios "docs/"
                (Sample.start [("/root/docs/", [])])
                {| absoluteBasePath := "/root/docs"; target := "" |} eq_refl) as H.
  cbv zeta in H. rewrite H. reflexivity.
Defined.

Lemma save_writes_once_with_replace_witness :
  fst (getAbsolutePathInfo Sample.ios "docs/" (Sample.start [])) =
    Fulfilled {| absoluteBasePath := "/root/docs"; target := "" |}
  /\ save Sample.ios "docs/" [] (Sample.start []) =
       (Fulfilled "/root/docs/",
        afterCall (Sample.start []) (WriteFile "/root/docs" "" [] {| replace := true |})
                  [("/root/docs/", [])]).
Proof.
  split; [reflexivity|].
  pose proof (save_writes_once_with_replace Sample.ios "docs/" [] (Sample.start [])
                {| absoluteBasePath := "/root/docs"; target := "" |} eq_refl) as H.
  cbv zeta in H. rewrite H. reflexivity.
Defined.

Lemma getDirectory_needs_parent_witness :
  fst (getAbsolutePathInfo Sample.ios "docs/" (Sample.start [])) =
    Fulfilled {| absoluteBasePath := "/root/docs"; target := "" |}
  /\ fst (getDirectory Sample.ios "docs/" (Sample.start [])) = Fulfilled "/root/docs/".
Proof.
  split; [reflexivity|].
  pose proof (getDirectory_needs_parent Sample.ios "docs/" (Sample.start [])
                {| absoluteBasePath := "/root/docs"; target := "" |} eq_refl) as H.
  cbv zeta in H. rewrite H. reflexivity.
Defined.

Lemma android_open_asks_opener_for_base_and_path_witness :
  fst (getAbsolutePathInfo (Sample.android Sample.openerWithoutFile) "docs/"
         (Sample.start [])) =
    Fulfilled {| absoluteBasePath := "/root/docs"; target := "" |}
  /\ calls (snd (open Sample.toURL Sample.viewerShowing
                   (Sample.android Sample.openerWithoutFile) "docs/" None (Sample.start []))) =
       [FileOpenerOpen "/root/docs/" ""].
Proof.
  split; [reflexivity|].
  pose proof (android_open_asks_opener_for_base_and_path Sample.toURL Sample.viewerShowing
                (Sample.device "/root" "/data") Sample.openerWithoutFile "docs/" None
                (Sample.start [])
                {| absoluteBasePath := "/root/docs"; target := "" |} eq_refl) as H.
  cbv zeta in H. destruct H as [Hcalls _]. exact Hcalls.
Defined.

Lemma ios_open_follows_viewer_report_witness :
  getFile Sample.ios "docs//" (Sample.start []) =
    (Fulfilled "/root//root/docs//", snd (getFile Sample.ios "docs//" (Sample.start [])))
  /\ JS.isSafeInteger 53 = true
  /\ fst (open Sample.toURL Sample.viewerFailingAtOnce Sample.ios "docs//"
            (Some "application/pdf") (Sample.start [])) =
       Rejected (CantOpenFileTypeException (cantOpenOnIOS 53)).
Proof.
  split; [reflexivity|]. split; [reflexivity|].
  assert (Hsafe : forall when errorCode,
             fst (Sample.viewerFailingAtOnce (Sample.toURL "/root//root/docs//") None
                    (world (snd (getFile Sample.ios "docs//" (Sample.start []))))) =
               FailureCallback when errorCode ->
             JS.isSafeInteger errorCode = true).
  { intros when errorCode H. injection H as _ <-. reflexivity. }
  pose proof (ios_open_follows_viewer_report Sample.toURL Sample.viewerFailingAtOnce
                (Sample.device "/ext" "/root") "docs//" (Some "application/pdf")
                (Sample.start []) (snd (getFile Sample.ios "docs//" (Sample.start [])))
                "/root//root/docs//" eq_refl Hsafe) as H.
  cbv zeta in H. destruct H as [_ [_ Hrun]]. exact Hrun.
Defined.

Lemma factory_adapter_base_path_witness :
  CORDOVA_FILESYSTEM_FACTORY (Sample.onlyIs "android") (Sample.device "/root" "/data")
    Sample.openerWithoutFile = inr (Sample.android Sample.openerWithoutFile)
  /\ getFilesystemBasePath (Sample.android Sample.openerWithoutFile) (Sample.start []) =
       (Fulfilled "/root", Sample.start []).
Proof.
  split; [reflexivity|].
  apply (factory_adapter_base_path (Sample.onlyIs "android") (Sample.device "/root" "/data")
           Sample.openerWithoutFile (Sample.android Sample.openerWithoutFile) "docs/"
           (Sample.start [])).
  reflexivity.
Defined.

Lemma getFile_reaches_device_on_double_separator_witness :
  terminalSegment (basePathOf Sample.ios) = Some "root"
  /\ ((("docs/" = "/" \/ exists p, "docs/" = p ++ "//")
       /\ exists asked, asked <> []
            /\ calls (snd (getFile Sample.ios "docs/" (Sample.start []))) = ([] ++ asked)%list)
      \/ (~ ("docs/" = "/" \/ exists p, "docs/" = p ++ "//")
          /\ exists msg,
               getFile Sample.ios "docs/" (Sample.start []) =
                 (Rejected (IOError msg), Sample.start []))).
Proof.
  split; [reflexivity|].
  apply (getFile_reaches_device_on_double_separator Sample.ios "docs/" "root"
           (Sample.start [])); [reflexivity | discriminate].
Defined.

Lemma ios_open_reaches_device_on_double_separator_witness :
  terminalSegment (dataDirectory (Sample.device "/ext" "/root")) = Some "root"
  /\ ((("docs//" = "/" \/ exists p, "docs//" = p ++ "//")
       /\ exists asked, asked <> []
            /\ calls (snd (open Sample.toURL Sample.viewerShowing Sample.ios "docs//" None
                             (Sample.start []))) = ([] ++ asked)%list)
      \/ (~ ("docs//" = "/" \/ exists p, "docs//" = p ++ "//")
          /\ exists msg,
               open Sample.toURL Sample.viewerShowing Sample.ios "docs//" None
                    (Sample.start []) = (Rejected (IOError msg), Sample.start []))).
Proof.
  split; [reflexivity|].
  apply (ios_open_reaches_device_on_double_separator Sample.toURL Sample.viewerShowing
           (Sample.device "/ext" "/root") "docs//" "root" None (Sample.start []));
    [reflexivity | discriminate].
Defined.

Lemma save_then_exists_on_resolved_path_witness :
  save Sample.ios "docs/" [] (Sample.start []) =
    (Fulfilled "/root/docs/", snd (save Sample.ios "docs/" [] (Sample.start [])))
  /\ fst (exists_ Sample.ios "docs/" (snd (save Sample.ios "docs/" [] (Sample.start [])))) =
       Fulfilled true.
Proof.
  split; [reflexivity|].
  apply (save_then_exists_on_resolved_path Sample.ios "docs/" [] (Sample.start [])
           (snd (save Sample.ios "docs/" [] (Sample.start []))) "/root/docs/").
  - intros dir name bytes options w written _. simpl.
    unfold Sample.checkFile, Sample.writeFile, Sample.hasFile. simpl.
    now rewrite String.eqb_refl.
  - reflexivity.
Defined.
